(** * git_repo_manager: orchestration of a two-repository git workflow

    A shallow embedding of [git_repo_manager.py].  The script drives the
    external [git] tool through [subprocess.run] and touches the file
    system through [os.makedirs], [os.path.exists] and [os.path.abspath].
    Those collaborators are the fields of a [System]; the script's own
    functions are written over an arbitrary [System] in a small monad that
    threads the world, records every print and every command issued, and
    stops at [sys.exit] or at an uncaught exception.

    Python [str] values are modelled as [string]: sequences of characters
    whose code points lie below 256. *)

From Stdlib Require Import String Ascii List ZArith Bool Arith Lia.
Import ListNotations.
Open Scope list_scope.
Open Scope string_scope.

(** ** Python string operations used by the script *)

Module PyStr.

(** [str.isspace] on one character, restricted to code points below 256:
    TAB..CR, FS..US, SPACE, NEL and NBSP. *)
Definition isspace (c : ascii) : bool :=
  let n := nat_of_ascii c in
  (((9 <=? n) && (n <=? 13)) || ((28 <=? n) && (n <=? 31))
   || (n =? 32) || (n =? 133) || (n =? 160))%nat.

Fixpoint lstrip (s : string) : string :=
  match s with
  | String c r => if isspace c then lstrip r else s
  | EmptyString => EmptyString
  end.

Fixpoint rstrip (s : string) : string :=
  match s with
  | String c r =>
      match rstrip r with
      | EmptyString => if isspace c then EmptyString else String c EmptyString
      | r' => String c r'
      end
  | EmptyString => EmptyString
  end.

(** [s.strip()] *)
Definition strip (s : string) : string := rstrip (lstrip s).

(** [s.split()] with no separator: the maximal runs of non-blank
    characters, in order.  [cur] is the run being read, reversed. *)
Fixpoint split_aux (cur : list ascii) (s : string) : list string :=
  let flush rest :=
    match cur with
    | [] => rest
    | _ => string_of_list_ascii (rev cur) :: rest
    end in
  match s with
  | EmptyString => flush []
  | String c r =>
      if isspace c then flush (split_aux [] r) else split_aux (c :: cur) r
  end.

Definition split (s : string) : list string := split_aux [] s.

(** [x in xs] for a list of strings *)
Definition mem (x : string) (xs : list string) : bool :=
  existsb (String.eqb x) xs.

(** [c in s] for a single character *)
Fixpoint has_char (c : ascii) (s : string) : bool :=
  match s with
  | EmptyString => false
  | String d r => Ascii.eqb d c || has_char c r
  end.

(** [s.endswith("/")] *)
Fixpoint ends_with_sep (s : string) : bool :=
  match s with
  | EmptyString => false
  | String c EmptyString => Ascii.eqb c "/"%char
  | String _ r => ends_with_sep r
  end.

(** [os.path.join(a, b)] of posixpath *)
Definition path_join (a b : string) : string :=
  match b with
  | String "/"%char _ => b
  | _ =>
      match a with
      | EmptyString => b
      | _ => if ends_with_sep a then a ++ b else a ++ "/" ++ b
      end
  end.

(** No blank character at either end, and only blanks removed. *)
Definition blank (s : string) : bool :=
  forallb isspace (list_ascii_of_string s).

Definition starts_blank (s : string) : bool :=
  match s with
  | String c _ => isspace c
  | EmptyString => false
  end.

Fixpoint ends_blank (s : string) : bool :=
  match s with
  | EmptyString => false
  | String c EmptyString => isspace c
  | String _ r => ends_blank r
  end.

Definition trimmed_of (s v : string) : Prop :=
  (exists l r, s = l ++ v ++ r /\ blank l = true /\ blank r = true)
  /\ starts_blank v = false /\ ends_blank v = false.

(** Truth value of a [str]. *)
Definition nonempty (s : string) : bool :=
  match s with
  | EmptyString => false
  | String _ _ => true
  end.

(** Truth value of an argument that is a [str] or [None]. *)
Definition truthy (v : option string) : bool :=
  match v with
  | Some s => nonempty s
  | None => false
  end.

(** [f"{v}"] *)
Definition fmt (v : option string) : string :=
  match v with
  | Some s => s
  | None => "None"
  end.

End PyStr.

(** ** The outside world *)

(** What [subprocess.run(..., capture_output=True, text=True)] hands back
    once the child has exited. *)
Record CompletedProcess : Type := mkCompleted {
  returncode : Z;
  stdout : string;
  stderr : string
}.

(** The collaborators of the script.  [subprocess_run command cwd w] is
    [None] when the child cannot be started at all (an [OSError], for
    instance a missing working directory); [makedirs d w] is
    [os.makedirs(d, exist_ok=True)] and is [None] when it raises.  The
    script never changes its own working directory, so [abspath] does
    not depend on the world. *)
Record System (World : Type) : Type := mkSystem {
  subprocess_run : string -> option string -> World -> option CompletedProcess * World;
  makedirs : string -> World -> option World;
  path_exists : string -> World -> bool;
  abspath : string -> string
}.

Arguments subprocess_run {World} _ _ _ _.
Arguments makedirs {World} _ _ _.
Arguments path_exists {World} _ _ _.
Arguments abspath {World} _ _.

(** What an observer of the process sees, in order: a line printed, a
    command line handed to [subprocess.run] with its working directory, a
    call of [os.makedirs]. *)
Inductive Event : Type :=
| Printed (line : string)
| Issued (command : string) (cwd : option string)
| MadeDirs (dir : string).

(** The shell commands of a trace, with their working directories. *)
Fixpoint commands_of (t : list Event) : list (string * option string) :=
  match t with
  | [] => []
  | Issued c d :: r => (c, d) :: commands_of r
  | _ :: r => commands_of r
  end.

Inductive PyExn : Type := OSError.

(** How a computation ends: it returns a value, it calls [sys.exit], or an
    exception nobody catches unwinds the interpreter. *)
Inductive Result (A : Type) : Type :=
| Returned (a : A)
| Exited (code : Z)
| Raised (e : PyExn).

Arguments Returned {A} _.
Arguments Exited {A} _.
Arguments Raised {A} _.

(** The exit status of the process when [main] ends this way. *)
Definition exit_status {A} (r : Result A) : Z :=
  match r with
  | Returned _ => 0
  | Exited c => c
  | Raised _ => 1
  end.

(** ** The monad of the script *)

Record Run (World A : Type) : Type := mkRun {
  result : Result A;
  trace : list Event;
  final : World
}.

Arguments mkRun {World A} _ _ _.
Arguments result {World A} _.
Arguments trace {World A} _.
Arguments final {World A} _.

Definition M (World A : Type) : Type := World -> Run World A.

Definition ret {World A} (a : A) : M World A :=
  fun w => mkRun (Returned a) [] w.

(** Sequencing: the continuation runs only when the first part returned;
    [sys.exit] and uncaught exceptions cut the rest off. *)
Definition bind {World A B} (m : M World A) (k : A -> M World B) : M World B :=
  fun w =>
    let r := m w in
    match result r with
    | Returned a =>
        let r' := k a (final r) in
        mkRun (result r') (trace r ++ trace r') (final r')
    | Exited c => mkRun (Exited c) (trace r) (final r)
    | Raised e => mkRun (Raised e) (trace r) (final r)
    end.

Declare Scope py_scope.
Delimit Scope py_scope with py.
Notation "x <- m ;; k" := (bind m (fun x => k))
  (at level 61, m at next level, right associativity) : py_scope.
Notation "m ;; k" := (bind m (fun _ => k))
  (at level 61, right associativity) : py_scope.

(** [print(line)] *)
Definition print {World} (line : string) : M World unit :=
  fun w => mkRun (Returned tt) [Printed line] w.

(** [sys.exit(code)] *)
Definition sys_exit {World A} (code : Z) : M World A :=
  fun w => mkRun (Exited code) [] w.

(** ** The script *)

(** The two module-level URL variables. *)
Record Globals : Type := mkGlobals {
  mainGitHubURL : string;
  subGitHubURL : string
}.

(** Their values in the file as it is. *)
Definition shipped : Globals :=
  {| mainGitHubURL :=
       "https://github.com/SE1020-IT2070-OOP-DSA-25/project-Bashitha-Weerapperuma.git";
     subGitHubURL :=
       "https://github.com/Bashitha-Weerapperuma/AF-SE1020-Production.git" |}.

Inductive Action : Type := Setup | Commit | Push | Pull | Merge | Sync.

(** The namespace [parser.parse_args()] returns. *)
Record Args : Type := mkArgs {
  main_repo : option string;
  sub_repo : option string;
  action : Action;
  message : string;
  branch : string;
  source_branch : option string;
  main_dir : string;
  sub_dir : string
}.

(** The namespace of an invocation without any option. *)
Definition default_args : Args :=
  {| main_repo := None; sub_repo := None; action := Setup;
     message := "Update from script"; branch := "main";
     source_branch := None; main_dir := "main_repo"; sub_dir := "sub_repo" |}.

(** Default values of the keyword parameters [remote] and [branch]. *)
Definition default_remote : string := "origin".
Definition default_branch : string := "main".

Section Script.

Context {World : Type}.
Variable sys : System World.
Variable globals : Globals.

Import PyStr.
Local Open Scope py_scope.

Local Abbreviation M := (M World).

(** [os.makedirs(d, exist_ok=True)] *)
Definition os_makedirs (d : string) : M unit :=
  fun w =>
    match makedirs sys d w with
    | Some w' => mkRun (Returned tt) [MadeDirs d] w'
    | None => mkRun (Raised OSError) [MadeDirs d] w
    end.

(** [os.path.exists(p)] *)
Definition os_path_exists (p : string) : M bool :=
  fun w => mkRun (Returned (path_exists sys p w)) [] w.

(** [subprocess.run(command, shell=True, text=True, capture_output=True,
    cwd=cwd)] up to the point where the child has exited. *)
Definition spawn (command : string) (cwd : option string) : M CompletedProcess :=
  fun w =>
    match subprocess_run sys command cwd w with
    | (Some cp, w') => mkRun (Returned cp) [Issued command cwd] w'
    | (None, w') => mkRun (Raised OSError) [Issued command cwd] w'
    end.

(** [check=True] raises [CalledProcessError] on a non-zero return code,
    and the [except] clause of [run_command] is its only handler. *)
Definition run_command (command : string) (cwd : option string) : M string :=
  cp <- spawn command cwd ;;
  if (returncode cp =? 0)%Z then
    ret (strip (stdout cp))
  else
    print ("Error executing command: " ++ command) ;;
    print ("Error message: " ++ stderr cp) ;;
    sys_exit 1.

(** Lines 45-54 of [setup_repositories]: clone or initialize main. *)
Definition setup_main (main_repo_url : option string) (main_repo_dir : string) : M unit :=
  present <- os_path_exists (path_join main_repo_dir ".git") ;;
  if present then
    print ("Main repository already exists in " ++ main_repo_dir)
  else if truthy main_repo_url then
    print ("Cloning main repository from " ++ fmt main_repo_url ++ "...") ;;
    run_command ("git clone " ++ fmt main_repo_url ++ " " ++ main_repo_dir) None ;;
    ret tt
  else
    print ("Initializing new main repository in " ++ main_repo_dir ++ "...") ;;
    run_command "git init" (Some main_repo_dir) ;;
    ret tt.

(** Lines 56-65 of [setup_repositories]: clone sub. *)
Definition setup_sub (sub_repo_url : option string) (sub_repo_dir : string) : M unit :=
  present <- os_path_exists (path_join sub_repo_dir ".git") ;;
  if present then
    print ("Sub repository already exists in " ++ sub_repo_dir)
  else if truthy sub_repo_url then
    print ("Cloning sub repository from " ++ fmt sub_repo_url ++ "...") ;;
    run_command ("git clone " ++ fmt sub_repo_url ++ " " ++ sub_repo_dir) None ;;
    ret tt
  else
    print "Error: No sub repository URL provided" ;;
    sys_exit 1.

Definition setup_repositories (main_repo_url sub_repo_url : option string)
    (main_repo_dir sub_repo_dir : string) : M (string * string) :=
  os_makedirs main_repo_dir ;;
  os_makedirs sub_repo_dir ;;
  main_repo_url <-
    (if negb (truthy main_repo_url) && nonempty (mainGitHubURL globals) then
       print ("Using main repository URL from global variable: "
              ++ mainGitHubURL globals) ;;
       ret (Some (mainGitHubURL globals))
     else ret main_repo_url) ;;
  sub_repo_url <-
    (if negb (truthy sub_repo_url) && nonempty (subGitHubURL globals) then
       print ("Using sub repository URL from global variable: "
              ++ subGitHubURL globals) ;;
       ret (Some (subGitHubURL globals))
     else ret sub_repo_url) ;;
  setup_main main_repo_url main_repo_dir ;;
  setup_sub sub_repo_url sub_repo_dir ;;
  ret (main_repo_dir, sub_repo_dir).

Definition add_sub_repo_as_remote (main_repo_dir sub_repo_dir remote_name : string)
    : M unit :=
  let sub_repo_abs_path := abspath sys sub_repo_dir in
  remotes <- run_command "git remote" (Some main_repo_dir) ;;
  if mem remote_name (split remotes) then
    print ("Remote '" ++ remote_name ++ "' already exists, updating URL...") ;;
    run_command ("git remote set-url " ++ remote_name ++ " " ++ sub_repo_abs_path)
                (Some main_repo_dir) ;;
    ret tt
  else
    print ("Adding sub repository as remote '" ++ remote_name ++ "'...") ;;
    run_command ("git remote add " ++ remote_name ++ " " ++ sub_repo_abs_path)
                (Some main_repo_dir) ;;
    ret tt.

Definition commit_changes (repo_dir message : string) : M string :=
  print ("Committing changes in " ++ repo_dir ++ "...") ;;
  run_command "git add ." (Some repo_dir) ;;
  result <- run_command ("git commit -m '" ++ message ++ "'") (Some repo_dir) ;;
  print result ;;
  ret result.

Definition push_to_repo (source_dir remote branch : string) : M string :=
  print ("Pushing changes from " ++ source_dir ++ " to " ++ remote ++ "/" ++ branch
         ++ "...") ;;
  result <- run_command ("git push " ++ remote ++ " " ++ branch) (Some source_dir) ;;
  print result ;;
  ret result.

Definition pull_from_repo (target_dir remote branch : string) : M string :=
  print ("Pulling changes into " ++ target_dir ++ " from " ++ remote ++ "/" ++ branch
         ++ "...") ;;
  result <- run_command ("git pull " ++ remote ++ " " ++ branch) (Some target_dir) ;;
  print result ;;
  ret result.

Definition merge_branches (repo_dir : string) (source_branch : option string)
    (target_branch : string) : M string :=
  print ("Merging " ++ fmt source_branch ++ " into " ++ target_branch ++ " in "
         ++ repo_dir ++ "...") ;;
  run_command ("git checkout " ++ target_branch) (Some repo_dir) ;;
  result <- run_command ("git merge " ++ fmt source_branch) (Some repo_dir) ;;
  print result ;;
  ret result.

Definition sync_repos (main_repo_dir sub_repo_dir remote_name branch : string)
    : M unit :=
  push_to_repo main_repo_dir remote_name branch ;;
  run_command ("git checkout " ++ branch) (Some sub_repo_dir) ;;
  pull_from_repo sub_repo_dir default_remote default_branch ;;
  ret tt.

(** [main] after [parser.parse_args()] has produced [args]. *)
Definition main (args : Args) : M unit :=
  let main_repo :=
    if truthy (main_repo args) then main_repo args
    else Some (mainGitHubURL globals) in
  let sub_repo :=
    if truthy (sub_repo args) then sub_repo args
    else Some (subGitHubURL globals) in
  match action args with
  | Setup =>
      (if negb (truthy sub_repo) then
         print ("Error: No sub repository URL provided. Please either set the "
                ++ "global subGitHubURL or provide --sub-repo") ;;
         sys_exit 1
       else ret tt) ;;
      dirs <- setup_repositories main_repo sub_repo (main_dir args) (sub_dir args) ;;
      add_sub_repo_as_remote (fst dirs) (snd dirs) "subrepo" ;;
      print "Repositories setup complete!"
  | Commit =>
      commit_changes (main_dir args) (message args) ;; ret tt
  | Push =>
      push_to_repo (main_dir args) "subrepo" (branch args) ;; ret tt
  | Pull =>
      pull_from_repo (main_dir args) "origin" (branch args) ;; ret tt
  | Merge =>
      (if negb (truthy (source_branch args)) then
         print "Error: --source-branch is required for merge operation" ;;
         sys_exit 1
       else ret tt) ;;
      merge_branches (main_dir args) (source_branch args) (branch args) ;;
      ret tt
  | Sync =>
      sync_repos (main_dir args) (sub_dir args) "subrepo" (branch args)
  end.

End Script.

(** ** Vocabulary of the properties *)

(** The result of a run with its value forgotten. *)
Definition void {A} (r : Result A) : Result unit :=
  match r with
  | Returned _ => Returned tt
  | Exited c => Exited c
  | Raised e => Raised e
  end.

(** What a run did to the outside: how it ended, the command lines it
    issued in order, and the world it left. *)
Definition outcome {World A} (r : Run World A)
    : Result unit * list (string * option string) * World :=
  (void (result r), commands_of (trace r), final r).

(** The lines [run_command] leaves behind when the child failed. *)
Definition failure_report (command : string) (cwd : option string)
    (cp : CompletedProcess) : list Event :=
  [Issued command cwd;
   Printed ("Error executing command: " ++ command);
   Printed ("Error message: " ++ stderr cp)].

(** Strictly sequential execution of a fixed list of command lines, as the
    specification words it: each one runs in the world the previous one
    left, and the first that does not exit with status zero ends the
    process with status 1, the remaining ones never being issued. *)
Fixpoint fail_stop {World} (sys : System World)
    (cmds : list (string * option string)) (w : World)
    : Result unit * list (string * option string) * World :=
  match cmds with
  | [] => (Returned tt, [], w)
  | (c, d) :: rest =>
      match subprocess_run sys c d w with
      | (Some cp, w') =>
          if (returncode cp =? 0)%Z then
            let '(r, issued, w'') := fail_stop sys rest w' in
            (r, (c, d) :: issued, w'')
          else (Exited 1, [(c, d)], w')
      | (None, w') => (Raised OSError, [(c, d)], w')
      end
  end.

(** The three command lines of a sync. *)
Definition sync_commands (main_repo_dir sub_repo_dir remote_name branch : string)
    : list (string * option string) :=
  [("git push " ++ remote_name ++ " " ++ branch, Some main_repo_dir);
   ("git checkout " ++ branch, Some sub_repo_dir);
   ("git pull origin main", Some sub_repo_dir)].

(** The two command lines of a commit. *)
Definition commit_commands (repo_dir message : string)
    : list (string * option string) :=
  [("git add .", Some repo_dir);
   ("git commit -m '" ++ message ++ "'", Some repo_dir)].

(** The effective URL after the fall-back to a module-level variable. *)
Definition effective_url (given : option string) (global : string) : option string :=
  if negb (PyStr.truthy given) && PyStr.nonempty global then Some global else given.

(** The line [setup_repositories] prints when it puts a module-level URL
    in place of a missing argument; [label] is [main] or [sub]. *)
Definition fallback_notice (label : string) (given : option string) (global : string)
    : list Event :=
  if negb (PyStr.truthy given) && PyStr.nonempty global
  then [Printed ("Using " ++ label ++ " repository URL from global variable: "
                 ++ global)]
  else [].

(** The command lines that provision the main and the sub repository. *)
Definition clone_command (url : option string) (dir : string) : string * option string :=
  ("git clone " ++ PyStr.fmt url ++ " " ++ dir, None).

Definition init_command (dir : string) : string * option string :=
  ("git init", Some dir).

(** The command lines a setup may issue: the clone or the initialization
    of main, the clone of sub, each with its effective URL. *)
Definition provisioning (globals : Globals) (mu su : option string) (md sd : string)
    (c : string * option string) : Prop :=
  let um := effective_url mu (mainGitHubURL globals) in
  let us := effective_url su (subGitHubURL globals) in
  (c = clone_command um md /\ PyStr.truthy um = true)
  \/ (c = init_command md /\ PyStr.truthy um = false)
  \/ (c = clone_command us sd /\ PyStr.truthy us = true).

(** What git and the file system are taken to guarantee around a setup
    of [md] and [sd] with the URLs [um] and [us]: a clone or an
    initialization that succeeded leaves the metadata directory in place,
    the clone of sub does not remove the metadata of main, and making a
    directory that already holds metadata changes nothing. *)
Definition provisioning_laws {World} (sys : System World)
    (um us : option string) (md sd : string) : Prop :=
  (forall w cp w',
      subprocess_run sys (fst (clone_command um md)) None w = (Some cp, w') ->
      returncode cp = 0%Z -> path_exists sys (PyStr.path_join md ".git") w' = true)
  /\ (forall w cp w',
      subprocess_run sys "git init" (Some md) w = (Some cp, w') ->
      returncode cp = 0%Z -> path_exists sys (PyStr.path_join md ".git") w' = true)
  /\ (forall w cp w',
      subprocess_run sys (fst (clone_command us sd)) None w = (Some cp, w') ->
      returncode cp = 0%Z -> path_exists sys (PyStr.path_join sd ".git") w' = true)
  /\ (forall w,
      path_exists sys (PyStr.path_join md ".git") w = true ->
      path_exists sys (PyStr.path_join md ".git")
        (snd (subprocess_run sys (fst (clone_command us sd)) None w)) = true)
  /\ (forall w,
      path_exists sys (PyStr.path_join md ".git") w = true -> makedirs sys md w = Some w)
  /\ (forall w,
      path_exists sys (PyStr.path_join sd ".git") w = true -> makedirs sys sd w = Some w).

(** Every command line a computation issues, in any world, satisfies [P]. *)
Definition issues_only {World A} (P : string * option string -> Prop)
    (m : M World A) : Prop :=
  forall w c, In c (commands_of (trace (m w))) -> P c.

(** A table of remotes: names with their targets, in configuration order. *)
Module Remotes.

Definition table : Type := list (string * string).

Definition names (t : table) : list string := map fst t.

(** The entries called [n]. *)
Definition entries (n : string) (t : table) : table :=
  filter (fun e => String.eqb (fst e) n) t.

(** [git remote set-url n p] on the table. *)
Fixpoint set_url (n p : string) (t : table) : table :=
  match t with
  | [] => []
  | (m, q) :: r => if String.eqb m n then (m, p) :: set_url n p r
                   else (m, q) :: set_url n p r
  end.

(** [git remote add n p] on the table. *)
Definition add (n p : string) (t : table) : table := (t ++ [(n, p)])%list.

End Remotes.

(** What git is taken to guarantee about the remotes of the repository
    in [md], observed as [table], in the worlds [ok] where that
    repository can be worked on: [git remote] lists the configured names
    and changes nothing, [git remote add] of a name not yet there appends
    an entry, [git remote set-url] of a name already there retargets it,
    and both leave the repository workable. *)
Definition remote_laws {World} (sys : System World) (table : World -> Remotes.table)
    (ok : World -> Prop) (md name target : string) : Prop :=
  (forall w, ok w -> exists cp,
      subprocess_run sys "git remote" (Some md) w = (Some cp, w)
      /\ returncode cp = 0%Z
      /\ PyStr.split (PyStr.strip (stdout cp)) = Remotes.names (table w))
  /\ (forall w, ok w ->
      PyStr.mem name (Remotes.names (table w)) = false ->
      exists cp w',
        subprocess_run sys ("git remote add " ++ name ++ " " ++ target) (Some md) w
        = (Some cp, w')
        /\ returncode cp = 0%Z
        /\ table w' = Remotes.add name target (table w)
        /\ ok w')
  /\ (forall w, ok w ->
      PyStr.mem name (Remotes.names (table w)) = true ->
      exists cp w',
        subprocess_run sys ("git remote set-url " ++ name ++ " " ++ target) (Some md) w
        = (Some cp, w')
        /\ returncode cp = 0%Z
        /\ table w' = Remotes.set_url name target (table w)
        /\ ok w').

(** The single-quote rule of the POSIX shell: after an opening quote
    every character stands for itself up to the next quote. *)
Module Sh.

(** The text up to the next quote, and what follows that quote. *)
Fixpoint until_quote (s : string) : option (string * string) :=
  match s with
  | EmptyString => None
  | String c r =>
      if Ascii.eqb c "'"%char then Some (EmptyString, r)
      else match until_quote r with
           | Some (body, rest) => Some (String c body, rest)
           | None => None
           end
  end.

(** [s] read as exactly one single-quoted word: its content. *)
Definition single_quoted_word (s : string) : option string :=
  match s with
  | String c r =>
      if Ascii.eqb c "'"%char then
        match until_quote r with
        | Some (body, EmptyString) => Some body
        | _ => None
        end
      else None
  | EmptyString => None
  end.

(** Is [s] one single-quoted word whose content is [m]? *)
Definition quotes (s m : string) : bool :=
  match single_quoted_word s with
  | Some body => String.eqb body m
  | None => false
  end.

End Sh.

(** The two command lines of a merge. *)
Definition merge_commands (repo_dir : string) (source_branch : option string)
    (target_branch : string) : list (string * option string) :=
  [("git checkout " ++ target_branch, Some repo_dir);
   ("git merge " ++ PyStr.fmt source_branch, Some repo_dir)].

(** Every event of a computation, in any world, satisfies [P]. *)
Definition emits_only {World A} (P : Event -> Prop) (m : M World A) : Prop :=
  forall w e, In e (trace (m w)) -> P e.

(** A computation that calls [sys.exit] does so with status [n]. *)
Definition exits_only_with {World A} (n : Z) (m : M World A) : Prop :=
  forall w c, result (m w) = Exited c -> c = n.

(** The last line of a setup. *)
Definition completion_line : string := "Repositories setup complete!".

(** The completion line is the last event of a run that returned and
    occurs nowhere else; a run that did not return does not have it. *)
Definition completes_cleanly {World A} (r : Run World A) : Prop :=
  (forall a, result r = Returned a ->
     exists t, trace r = (t ++ [Printed completion_line])%list
               /\ ~ In (Printed completion_line) t)
  /\ ((forall a, result r <> Returned a) -> ~ In (Printed completion_line) (trace r)).

(** An optional argument with the empty string read as no argument. *)
Definition absent_if_empty (v : option string) : option string :=
  if PyStr.truthy v then v else None.

Definition without_empty (args : Args) : Args :=
  mkArgs (absent_if_empty (main_repo args)) (absent_if_empty (sub_repo args))
         (action args) (message args) (branch args)
         (absent_if_empty (source_branch args)) (main_dir args) (sub_dir args).

(** The URL [main] hands to [setup_repositories]. *)
Definition cli_url (given : option string) (global : string) : option string :=
  if PyStr.truthy given then given else Some global.

(** ** A small concrete system

    A world made of a set of existing paths, one table of remotes, a flag
    for pending changes and a list of command lines that are made to fail.
    It stands in for git and the file system wherever a statement is
    evaluated on a concrete run. *)

Module Toy.

Import PyStr.

Record World : Type := mkWorld {
  paths : list string;
  remotes : list (string * string);
  dirty : bool;
  failing : list string
}.

Definition ok (out : string) : CompletedProcess := mkCompleted 0 out "".
Definition ko (code : Z) (err : string) : CompletedProcess := mkCompleted code "" err.

Definition with_paths (w : World) (ps : list string) : World :=
  mkWorld ps (remotes w) (dirty w) (failing w).

Definition with_remotes (w : World) (rs : list (string * string)) : World :=
  mkWorld (paths w) rs (dirty w) (failing w).

Definition with_dirty (w : World) (d : bool) : World :=
  mkWorld (paths w) (remotes w) d (failing w).

(** One remote name per line, as [git remote] prints them. *)
Fixpoint listing (rs : list (string * string)) : string :=
  match rs with
  | [] => ""
  | (m, _) :: r => m ++ String "010"%char (listing r)
  end.

Definition usage (w : World) : CompletedProcess * World := (ko 129 "usage: git", w).

Definition git (args : list string) (cwd : option string) (w : World)
    : CompletedProcess * World :=
  match args with
  | [] => usage w
  | sub :: rest =>
      if String.eqb sub "clone" then
        match rest with
        | [_; d] =>
            if mem (path_join d ".git") (paths w)
            then (ko 128 "fatal: destination path already exists", w)
            else (ok "", with_paths w (path_join d ".git" :: paths w))
        | _ => usage w
        end
      else if String.eqb sub "init" then
        match cwd with
        | Some d => (ok "Initialized empty Git repository",
                     with_paths w (path_join d ".git" :: paths w))
        | None => (ok "Initialized empty Git repository",
                   with_paths w (".git" :: paths w))
        end
      else if String.eqb sub "remote" then
        match rest with
        | [] => (ok (listing (remotes w)), w)
        | [op; n; p] =>
            if String.eqb op "add" then
              if mem n (map fst (remotes w))
              then (ko 3 ("error: remote " ++ n ++ " already exists."), w)
              else (ok "", with_remotes w (Remotes.add n p (remotes w)))
            else if String.eqb op "set-url" then
              if mem n (map fst (remotes w))
              then (ok "", with_remotes w (Remotes.set_url n p (remotes w)))
              else (ko 2 ("error: No such remote '" ++ n ++ "'"), w)
            else usage w
        | _ => usage w
        end
      else if String.eqb sub "commit" then
        if dirty w then (ok "1 file changed", with_dirty w false)
        else (mkCompleted 1 "nothing to commit, working tree clean" "", w)
      else if mem sub ["add"; "push"; "pull"; "checkout"; "merge"] then (ok "", w)
      else (ko 1 ("git: '" ++ sub ++ "' is not a git command"), w)
  end.

(** A directory is there when it is listed or holds metadata. *)
Definition is_dir (d : string) (w : World) : bool :=
  mem d (paths w) || mem (path_join d ".git") (paths w).

(** The shell splits the line at blanks and knows one program; a line
    listed in [failing] exits with status 1, and a child cannot start
    in a directory that does not exist. *)
Definition run (command : string) (cwd : option string) (w : World)
    : option CompletedProcess * World :=
  if match cwd with Some d => negb (is_dir d w) | None => false end
  then (None, w)
  else if mem command (failing w) then (Some (ko 1 "fatal: simulated failure"), w)
  else
    match split command with
    | [] => (Some (ok ""), w)
    | prog :: args =>
        if String.eqb prog "git"
        then let (cp, w') := git args cwd w in (Some cp, w')
        else (Some (ko 127 (prog ++ ": command not found")), w)
    end.

Definition mkdirs (d : string) (w : World) : option World :=
  match d with
  | EmptyString => None
  | _ => Some (if is_dir d w then w else with_paths w (d :: paths w))
  end.

Definition resolve (p : string) : string :=
  match p with
  | String "/"%char _ => p
  | _ => "/srv/" ++ p
  end.

Definition system : System World :=
  mkSystem World run mkdirs (fun p w => mem p (paths w)) resolve.

(** Nothing on disk, nothing made to fail. *)
Definition fresh : World := mkWorld [] [] false [].

(** Both repositories in place, nothing pending in main. *)
Definition provisioned : World :=
  mkWorld ["sub_repo/.git"; "sub_repo"; "main_repo/.git"; "main_repo"]
          [("subrepo", "/srv/sub_repo")] false [].

(** Main in place without any remote, sub missing. *)
Definition main_only : World :=
  mkWorld ["main_repo/.git"; "main_repo"] [] false [].

(** The module-level URLs both cleared. *)
Definition no_urls : Globals := mkGlobals "" "".

(** The same world with the command lines [cs] made to fail. *)
Definition failing_on (cs : list string) (w : World) : World :=
  mkWorld (paths w) (remotes w) (dirty w) cs.

(** Both repositories in place, the sub one in a directory whose name
    has a blank. *)
Definition blank_sub : World :=
  mkWorld ["my sub/.git"; "my sub"; "main_repo/.git"; "main_repo"] [] false [].

(** A setup with both URLs given on the command line. *)
Definition cli_setup : Args :=
  mkArgs (Some "m.git") (Some "s.git") Setup "Update from script" "main" None
         "main_repo" "sub_repo".

(** Main in place with something to commit. *)
Definition pending : World :=
  mkWorld ["main_repo/.git"; "main_repo"] [] true [].

Definition with_action (a : Action) (args : Args) : Args :=
  mkArgs (main_repo args) (sub_repo args) a (message args) (branch args)
         (source_branch args) (main_dir args) (sub_dir args).

(** Worlds in which main can be linked: its directory is there, no
    command is made to fail, and [subrepo] is configured at most once. *)
Definition linkable (w : World) : Prop :=
  is_dir "main_repo" w = true
  /\ failing w = []
  /\ (remotes w = []
      \/ remotes w = [("subrepo", "/old/place")]
      \/ remotes w = [("subrepo", "/srv/sub_repo")]).

End Toy.

(** * Properties *)

(** ** Trimming *)

Module PyStrFacts.

Import PyStr.

Lemma lstrip_split (s : string) :
  exists l, s = l ++ lstrip s /\ blank l = true.
Proof.
  induction s as [|c r [l [E B]]]; simpl.
  - exists ""; auto.
  - destruct (isspace c) eqn:C.
    + exists (String c l); simpl; split.
      * now rewrite <- E.
      * unfold blank in *; simpl; now rewrite C.
    + exists ""; auto.
Qed.

Lemma lstrip_starts (s : string) : starts_blank (lstrip s) = false.
Proof.
  induction s as [|c r IH]; simpl; auto.
  destruct (isspace c) eqn:C; simpl; auto.
Qed.

Lemma rstrip_split (s : string) :
  exists r, s = rstrip s ++ r /\ blank r = true.
Proof.
  induction s as [|c t [r [E B]]]; simpl.
  - exists ""; auto.
  - destruct (rstrip t) eqn:R.
    + destruct (isspace c) eqn:C.
      * exists (String c t); split; auto.
        simpl in E; subst t; unfold blank in *; simpl; now rewrite C.
      * exists r; simpl in *; now subst.
    + exists r; simpl in *; split; auto. now rewrite <- E.
Qed.

Lemma rstrip_ends (s : string) : ends_blank (rstrip s) = false.
Proof.
  induction s as [|c t IH]; simpl; auto.
  destruct (rstrip t) eqn:R.
  - destruct (isspace c) eqn:C; simpl; auto.
  - simpl in *; exact IH.
Qed.

Lemma rstrip_starts (s : string) :
  starts_blank s = false -> starts_blank (rstrip s) = false.
Proof.
  destruct s as [|c t]; simpl; auto.
  intros C; rewrite C. destruct (rstrip t); simpl; auto.
Qed.

Lemma append_assoc (a b c : string) : (a ++ b) ++ c = a ++ b ++ c.
Proof. induction a; simpl; congruence. Qed.

Lemma strip_trimmed (s : string) : trimmed_of s (strip s).
Proof.
  unfold trimmed_of, strip. repeat split.
  - destruct (lstrip_split s) as [l [El Bl]].
    destruct (rstrip_split (lstrip s)) as [r [Er Br]].
    exists l, r. split; [|auto]. now rewrite <- Er.
  - apply rstrip_starts, lstrip_starts.
  - apply rstrip_ends.
Qed.

End PyStrFacts.

(** ** Tables of remotes *)

Module RemotesFacts.

Import Remotes.

Lemma mem_In (x : string) (xs : list string) :
  PyStr.mem x xs = true <-> In x xs.
Proof.
  unfold PyStr.mem. rewrite existsb_exists. split.
  - intros [y [I E]]. apply String.eqb_eq in E. now subst.
  - intros I. exists x. split; auto. apply String.eqb_refl.
Qed.

Lemma mem_false (x : string) (xs : list string) :
  PyStr.mem x xs = false <-> ~ In x xs.
Proof.
  rewrite <- mem_In. destruct (PyStr.mem x xs); split; intros; congruence.
Qed.

Lemma names_set_url n p t : names (set_url n p t) = names t.
Proof.
  induction t as [|[m q] t IH]; simpl; auto.
  destruct (String.eqb m n); simpl; now rewrite IH.
Qed.

Lemma names_add n p t : names (add n p t) = (names t ++ [n])%list.
Proof. unfold names, add. now rewrite map_app. Qed.

Lemma entries_absent n t : ~ In n (names t) -> entries n t = [].
Proof.
  induction t as [|[m q] t IH]; simpl; auto.
  intros N. destruct (String.eqb m n) eqn:E.
  - apply String.eqb_eq in E. tauto.
  - apply IH. tauto.
Qed.

Lemma set_url_absent n p t : ~ In n (names t) -> set_url n p t = t.
Proof.
  induction t as [|[m q] t IH]; simpl; auto.
  intros N. destruct (String.eqb m n) eqn:E.
  - apply String.eqb_eq in E. tauto.
  - rewrite IH; tauto.
Qed.

Lemma entries_add n p t : ~ In n (names t) -> entries n (add n p t) = [(n, p)].
Proof.
  intros N. unfold entries, add. rewrite filter_app.
  fold (entries n t). rewrite (entries_absent n t N). simpl.
  now rewrite String.eqb_refl.
Qed.

Lemma entries_set_url n p t :
  NoDup (names t) -> In n (names t) -> entries n (set_url n p t) = [(n, p)].
Proof.
  induction t as [|[m q] t IH]; simpl; [tauto|].
  intros D I. inversion D as [|? ? N D']; subst.
  destruct (String.eqb m n) eqn:E; simpl; rewrite E.
  - apply String.eqb_eq in E; subst m.
    rewrite (set_url_absent n p t N).
    fold (entries n t). now rewrite (entries_absent n t N).
  - apply String.eqb_neq in E. destruct I as [I|I]; [congruence|].
    now apply IH.
Qed.

Lemma set_url_twice n p t : set_url n p (set_url n p t) = set_url n p t.
Proof.
  induction t as [|[m q] t IH]; simpl; auto.
  destruct (String.eqb m n) eqn:E; simpl; rewrite E; now rewrite IH.
Qed.

Lemma set_url_add n p t : ~ In n (names t) -> set_url n p (add n p t) = add n p t.
Proof.
  induction t as [|[m q] t IH]; simpl.
  - now rewrite String.eqb_refl.
  - intros N. destruct (String.eqb m n) eqn:E.
    + apply String.eqb_eq in E. tauto.
    + unfold add in IH. rewrite IH; tauto.
Qed.

End RemotesFacts.

Section Facts.

Context {World : Type}.
Variable sys : System World.
Variable globals : Globals.

Import PyStr.
Local Open Scope py_scope.

(** *** Sequencing *)

Lemma bind_returned {A B} (m : M World A) (k : A -> M World B) w a t w' :
  m w = mkRun (Returned a) t w' ->
  bind m k w = mkRun (result (k a w')) (t ++ trace (k a w')) (final (k a w')).
Proof. intros E; unfold bind; now rewrite E. Qed.

Lemma bind_exited {A B} (m : M World A) (k : A -> M World B) w c t w' :
  m w = mkRun (Exited c) t w' -> bind m k w = mkRun (Exited c) t w'.
Proof. intros E; unfold bind; now rewrite E. Qed.

Lemma bind_raised {A B} (m : M World A) (k : A -> M World B) w e t w' :
  m w = mkRun (Raised e) t w' -> bind m k w = mkRun (Raised e) t w'.
Proof. intros E; unfold bind; now rewrite E. Qed.

(** *** run_command *)

Lemma run_command_zero command cwd w cp w' :
  subprocess_run sys command cwd w = (Some cp, w') ->
  returncode cp = 0%Z ->
  run_command sys command cwd w
  = mkRun (Returned (strip (stdout cp))) [Issued command cwd] w'.
Proof.
  intros E Z0. unfold run_command, bind, spawn. rewrite E; simpl.
  now rewrite Z0.
Qed.

Lemma run_command_nonzero command cwd w cp w' :
  subprocess_run sys command cwd w = (Some cp, w') ->
  returncode cp <> 0%Z ->
  run_command sys command cwd w
  = mkRun (Exited 1) (failure_report command cwd cp) w'.
Proof.
  intros E NZ. unfold run_command, bind, spawn. rewrite E; simpl.
  apply Z.eqb_neq in NZ. now rewrite NZ.
Qed.

Lemma run_command_oserror command cwd w w' :
  subprocess_run sys command cwd w = (None, w') ->
  run_command sys command cwd w = mkRun (Raised OSError) [Issued command cwd] w'.
Proof.
  intros E. unfold run_command, bind, spawn. now rewrite E.
Qed.

(** C1.  When the child exits with status zero, [run_command] returns its
    standard output with the blanks at both ends removed.  When it exits
    with any other status, [run_command] prints the command and the
    captured standard error and calls [sys.exit(1)]; whatever was to
    follow does not run, and the process ends with status 1. *)
Theorem run_command_returns_or_terminates command cwd w cp w' :
  subprocess_run sys command cwd w = (Some cp, w') ->
  (returncode cp = 0%Z ->
     run_command sys command cwd w
     = mkRun (Returned (strip (stdout cp))) [Issued command cwd] w'
     /\ trimmed_of (stdout cp) (strip (stdout cp)))
  /\ (returncode cp <> 0%Z ->
       forall B (k : string -> M World B),
         bind (run_command sys command cwd) k w
         = mkRun (Exited 1) (failure_report command cwd cp) w'
         /\ exit_status (result (bind (run_command sys command cwd) k w)) <> 0%Z).
Proof.
  intros E; split.
  - intros Z0; split.
    + now apply run_command_zero.
    + apply PyStrFacts.strip_trimmed.
  - intros NZ B k.
    rewrite (bind_exited _ _ _ _ _ _ (run_command_nonzero _ _ _ _ _ E NZ)).
    split; [reflexivity | simpl; lia].
Qed.

(** *** Fail-stop sequences *)

Lemma fail_stop_prefix cmds w :
  exists rest, cmds = (snd (fst (fail_stop sys cmds w)) ++ rest)%list.
Proof.
  revert w; induction cmds as [|[c d] cmds IH]; intros w; simpl.
  - now exists [].
  - destruct (subprocess_run sys c d w) as [[cp|] w'].
    + destruct (returncode cp =? 0)%Z.
      * destruct (IH w') as [rest E].
        destruct (fail_stop sys cmds w') as [[r issued] w'']; simpl in *.
        exists rest; now rewrite <- E.
      * now exists cmds.
    + now exists cmds.
Qed.

Lemma fail_stop_returned cmds w :
  fst (fst (fail_stop sys cmds w)) = Returned tt ->
  snd (fst (fail_stop sys cmds w)) = cmds.
Proof.
  revert w; induction cmds as [|[c d] cmds IH]; intros w; simpl; auto.
  destruct (subprocess_run sys c d w) as [[cp|] w']; [|discriminate].
  destruct (returncode cp =? 0)%Z; [|discriminate].
  specialize (IH w').
  destruct (fail_stop sys cmds w') as [[r issued] w'']; simpl in *.
  intros R; now rewrite (IH R).
Qed.

(** A fail-stop sequence returns, or exits with status 1, or dies of an
    [OSError]. *)
Lemma fail_stop_ends cmds w :
  let r := fst (fst (fail_stop sys cmds w)) in
  r = Returned tt \/ r = Exited 1 \/ r = Raised OSError.
Proof.
  revert w; induction cmds as [|[c d] cmds IH]; intros w; simpl; auto.
  destruct (subprocess_run sys c d w) as [[cp|] w']; auto.
  destruct (returncode cp =? 0)%Z; auto.
  specialize (IH w'). destruct (fail_stop sys cmds w') as [[r issued] w''].
  exact IH.
Qed.

(** A failing command is the last one issued. *)
Lemma fail_stop_failure before c d after w :
  fst (fst (fail_stop sys before w)) = Returned tt ->
  (forall cp w', subprocess_run sys c d (snd (fail_stop sys before w)) = (Some cp, w') ->
                 returncode cp <> 0%Z) ->
  snd (fst (fail_stop sys (before ++ (c, d) :: after)%list w))
  = (before ++ [(c, d)])%list
  /\ fst (fst (fail_stop sys (before ++ (c, d) :: after)%list w)) <> Returned tt.
Proof.
  revert w; induction before as [|[c0 d0] before IH]; intros w; simpl.
  - intros _ F.
    destruct (subprocess_run sys c d w) as [[cp|] w'] eqn:E.
    + specialize (F cp w' eq_refl). apply Z.eqb_neq in F. rewrite F.
      split; [reflexivity | discriminate].
    + split; [reflexivity | discriminate].
  - destruct (subprocess_run sys c0 d0 w) as [[cp|] w']; [|discriminate].
    destruct (returncode cp =? 0)%Z; [|discriminate].
    specialize (IH w').
    destruct (fail_stop sys before w') as [[r issued] w''] eqn:E1; simpl in *.
    intros R F. destruct (IH R F) as [I1 I2].
    destruct (fail_stop sys (before ++ (c, d) :: after)%list w') as [[r2 i2] w2];
      simpl in *.
    split; [now rewrite I1 | exact I2].
Qed.

(** *** Stepping through a script *)

Lemma commands_of_app (t u : list Event) :
  commands_of (t ++ u) = (commands_of t ++ commands_of u)%list.
Proof.
  induction t as [|[l|c d|x] t IH]; simpl; auto. now rewrite IH.
Qed.

Lemma commands_of_outcome {A} (r : Run World A) :
  commands_of (trace r) = snd (fst (outcome r)).
Proof. reflexivity. Qed.

Lemma bind_assoc {A B C} (m : M World A) (f : A -> M World B)
    (g : B -> M World C) w :
  bind (bind m f) g w = bind m (fun x => bind (f x) g) w.
Proof.
  unfold bind. destruct (m w) as [[a|c|e] t w1]; simpl; auto.
  destruct (f a w1) as [[b|c|e] t2 w2]; simpl; auto.
  now rewrite app_assoc.
Qed.

Lemma bind_print {B} line (k : unit -> M World B) w :
  bind (print line) k w
  = mkRun (result (k tt w)) (Printed line :: trace (k tt w)) (final (k tt w)).
Proof. reflexivity. Qed.

Lemma bind_ret {A B} (a : A) (k : A -> M World B) w :
  bind (ret a) k w = k a w.
Proof. unfold bind, ret; simpl. now destruct (k a w). Qed.

Lemma bind_run_zero {B} command cwd (k : string -> M World B) w cp w' :
  subprocess_run sys command cwd w = (Some cp, w') ->
  returncode cp = 0%Z ->
  bind (run_command sys command cwd) k w
  = mkRun (result (k (strip (stdout cp)) w'))
          (Issued command cwd :: trace (k (strip (stdout cp)) w'))
          (final (k (strip (stdout cp)) w')).
Proof.
  intros E Z0. unfold bind at 1. now rewrite (run_command_zero _ _ _ _ _ E Z0).
Qed.

Lemma bind_run_nonzero {B} command cwd (k : string -> M World B) w cp w' :
  subprocess_run sys command cwd w = (Some cp, w') ->
  returncode cp <> 0%Z ->
  bind (run_command sys command cwd) k w
  = mkRun (Exited 1) (failure_report command cwd cp) w'.
Proof.
  intros E NZ. apply bind_exited. now apply run_command_nonzero.
Qed.

Lemma bind_run_oserror {B} command cwd (k : string -> M World B) w w' :
  subprocess_run sys command cwd w = (None, w') ->
  bind (run_command sys command cwd) k w
  = mkRun (Raised OSError) [Issued command cwd] w'.
Proof.
  intros E. apply bind_raised. now apply run_command_oserror.
Qed.

(** A printed line is invisible in the outcome. *)
Lemma print_then {B} line (k : unit -> M World B) w :
  outcome (bind (print line) k w) = outcome (k tt w).
Proof. reflexivity. Qed.

(** A command followed by a fail-stop sequence is a fail-stop sequence. *)
Lemma run_then {B} command cwd (k : string -> M World B) cmds w :
  (forall out w', outcome (k out w') = fail_stop sys cmds w') ->
  outcome (bind (run_command sys command cwd) k w)
  = fail_stop sys ((command, cwd) :: cmds) w.
Proof.
  intros K. simpl.
  destruct (subprocess_run sys command cwd w) as [[cp|] w'] eqn:E.
  - destruct (returncode cp =? 0)%Z eqn:Z0.
    + apply Z.eqb_eq in Z0. rewrite (bind_run_zero _ _ _ _ _ _ E Z0).
      rewrite <- (K (strip (stdout cp)) w'). unfold outcome; simpl.
      reflexivity.
    + apply Z.eqb_neq in Z0. now rewrite (bind_run_nonzero _ _ _ _ _ _ E Z0).
  - now rewrite (bind_run_oserror _ _ _ _ _ E).
Qed.

Lemma ret_then {A} (a : A) w : outcome (ret a w) = fail_stop sys [] w.
Proof. reflexivity. Qed.

(** One step of a straight-line script against its command list. *)
Ltac script :=
  repeat first
    [ rewrite bind_assoc
    | rewrite print_then
    | rewrite bind_ret
    | apply run_then; intros
    | apply ret_then ];
  try reflexivity.

(** *** sync_repos *)

Lemma sync_repos_fail_stop main_repo_dir sub_repo_dir remote_name branch w :
  outcome (sync_repos sys main_repo_dir sub_repo_dir remote_name branch w)
  = fail_stop sys (sync_commands main_repo_dir sub_repo_dir remote_name branch) w.
Proof.
  unfold sync_repos, push_to_repo, pull_from_repo, sync_commands. script.
Qed.

(** C2.  A sync issues, in this order, the push of [branch] from the main
    directory to [remote_name], the checkout of [branch] in the sub
    directory, and the pull in the sub directory from [origin] on
    [main], whatever [branch] is; the commands run one after the other,
    each in the world the previous one left, and the first one that
    fails ends the run, so that what has been issued is always an
    initial part of the three: all three when the sync returns, and
    otherwise the process ends with a status other than zero. *)
Theorem sync_repos_sequence main_repo_dir sub_repo_dir remote_name branch w :
  let r := sync_repos sys main_repo_dir sub_repo_dir remote_name branch w in
  let plan :=
    [("git push " ++ remote_name ++ " " ++ branch, Some main_repo_dir);
     ("git checkout " ++ branch, Some sub_repo_dir);
     ("git pull origin main", Some sub_repo_dir)] in
  outcome r = fail_stop sys plan w
  /\ (exists rest, plan = (commands_of (trace r) ++ rest)%list)
  /\ ((result r = Returned tt /\ commands_of (trace r) = plan)
      \/ (void (result r) <> Returned tt /\ exit_status (result r) <> 0%Z)).
Proof.
  intros r plan.
  pose proof (sync_repos_fail_stop main_repo_dir sub_repo_dir remote_name branch w)
    as E.
  fold r in E. unfold sync_commands in E. fold plan in E.
  split; [exact E|]. split.
  - destruct (fail_stop_prefix plan w) as [rest P].
    exists rest. rewrite <- E in P. exact P.
  - pose proof (fail_stop_ends plan w) as T.
    pose proof (fail_stop_returned plan w) as C.
    rewrite <- E in T, C. unfold outcome in T, C. cbn [fst snd] in T, C.
    destruct (result r) as [[]|c|e]; cbn [void] in *.
    + left. auto.
    + right. split; [discriminate|].
      destruct T as [T|[T|T]]; inversion T. simpl. lia.
    + right. split; [discriminate|]. simpl. lia.
Qed.

(** *** commit_changes *)

Lemma commit_changes_fail_stop repo_dir message w :
  outcome (commit_changes sys repo_dir message w)
  = fail_stop sys (commit_commands repo_dir message) w.
Proof. unfold commit_changes, commit_commands. script. Qed.

Lemma commit_changes_nothing repo_dir message w cp1 w1 cp2 w2 :
  subprocess_run sys "git add ." (Some repo_dir) w = (Some cp1, w1) ->
  returncode cp1 = 0%Z ->
  subprocess_run sys ("git commit -m '" ++ message ++ "'") (Some repo_dir) w1
  = (Some cp2, w2) ->
  returncode cp2 <> 0%Z ->
  commit_changes sys repo_dir message w
  = mkRun (Exited 1)
      ([Printed ("Committing changes in " ++ repo_dir ++ "...");
        Issued "git add ." (Some repo_dir)]
       ++ failure_report ("git commit -m '" ++ message ++ "'") (Some repo_dir) cp2)
      w2.
Proof.
  intros E1 Z1 E2 Z2. unfold commit_changes.
  rewrite bind_print, (bind_run_zero _ _ _ _ _ _ E1 Z1).
  now rewrite (bind_run_nonzero _ _ _ _ _ _ E2 Z2).
Qed.

(** C6.  A commit first stages everything with [git add .] and then runs
    [git commit] with the message, both in the repository directory.
    When staging succeeded and the commit command exits with a status
    other than zero, as it does when there is nothing to commit, the
    failure is reported and the process exits with status 1: nothing is
    printed as a result, no further command is issued, and the world is
    the one the failed command left. *)
Theorem commit_changes_stages_then_commits repo_dir message w cp1 w1 cp2 w2 :
  let add := "git add ." in
  let commit := "git commit -m '" ++ message ++ "'" in
  let r := commit_changes sys repo_dir message w in
  outcome r = fail_stop sys [(add, Some repo_dir); (commit, Some repo_dir)] w
  /\ (subprocess_run sys add (Some repo_dir) w = (Some cp1, w1) ->
      returncode cp1 = 0%Z ->
      subprocess_run sys commit (Some repo_dir) w1 = (Some cp2, w2) ->
      returncode cp2 <> 0%Z ->
      result r = Exited 1
      /\ exit_status (result r) <> 0%Z
      /\ final r = w2
      /\ trace r
         = [Printed ("Committing changes in " ++ repo_dir ++ "...");
            Issued add (Some repo_dir);
            Issued commit (Some repo_dir);
            Printed ("Error executing command: " ++ commit);
            Printed ("Error message: " ++ stderr cp2)]).
Proof.
  intros add commit r. split.
  - apply commit_changes_fail_stop.
  - intros E1 Z1 E2 Z2. unfold r.
    rewrite (commit_changes_nothing _ _ _ _ _ _ _ E1 Z1 E2 Z2). simpl.
    repeat split; auto; lia.
Qed.

(** *** The quoting of the commit message *)

Lemma until_quote_clean (m rest : string) :
  has_char "'" m = false ->
  Sh.until_quote (m ++ String "'" rest) = Some (m, rest).
Proof.
  induction m as [|c m IH]; simpl; auto.
  destruct (Ascii.eqb c "'"); simpl; [discriminate|].
  intros H; now rewrite (IH H).
Qed.

Lemma until_quote_early (m : string) :
  has_char "'" m = true ->
  exists body c rest, Sh.until_quote (m ++ "'") = Some (body, String c rest).
Proof.
  induction m as [|c m IH]; simpl; [discriminate|].
  destruct (Ascii.eqb c "'"); simpl.
  - intros _. destruct m as [|d m]; simpl; eauto.
  - intros H. destruct (IH H) as [body [d [rest E]]]. rewrite E; eauto.
Qed.

Lemma quotes_iff_clean (m : string) :
  Sh.quotes ("'" ++ m ++ "'") m = negb (has_char "'" m).
Proof.
  unfold Sh.quotes, Sh.single_quoted_word; simpl.
  destruct (has_char "'" m) eqn:H; simpl.
  - destruct (until_quote_early m H) as [body [c [rest E]]]. now rewrite E.
  - rewrite (until_quote_clean m "" H). apply String.eqb_refl.
Qed.

(** C10.  The command line of the commit is the text [git commit -m '],
    the message as it is, and a closing quote: nothing is escaped.  Read
    by the shell, the part after [-m ] is one single-quoted word that
    holds the message exactly when the message has no single quote. *)
Theorem commit_message_verbatim repo_dir message w :
  let commit := "git commit -m '" ++ message ++ "'" in
  let r := commit_changes sys repo_dir message w in
  outcome r = fail_stop sys [("git add .", Some repo_dir); (commit, Some repo_dir)] w
  /\ (exists rest,
        [("git add .", Some repo_dir); (commit, Some repo_dir)]
        = (commands_of (trace r) ++ rest)%list)
  /\ commit = "git commit -m " ++ ("'" ++ message ++ "'")
  /\ Sh.quotes ("'" ++ message ++ "'") message = negb (has_char "'" message).
Proof.
  intros commit r.
  pose proof (commit_changes_fail_stop repo_dir message w) as E.
  unfold commit_commands in E. fold commit in E. fold r in E.
  repeat split.
  - exact E.
  - destruct (fail_stop_prefix [("git add .", Some repo_dir); (commit, Some repo_dir)] w)
      as [rest P].
    exists rest. rewrite <- E in P. exact P.
  - apply quotes_iff_clean.
Qed.

(** *** Outcomes of the file-system steps *)

Lemma makedirs_then {B} d (k : unit -> M World B) w w' :
  makedirs sys d w = Some w' ->
  outcome (bind (os_makedirs sys d) k w) = outcome (k tt w').
Proof. intros E. unfold bind, os_makedirs. now rewrite E. Qed.

Lemma bind_exists {B} p (k : bool -> M World B) w :
  bind (os_path_exists sys p) k w = k (path_exists sys p w) w.
Proof.
  unfold bind, os_path_exists; simpl. now destruct (k (path_exists sys p w) w).
Qed.

Lemma run_first {B} command cwd (k : string -> M World B) w :
  exists rest,
    commands_of (trace (bind (run_command sys command cwd) k w))
    = (command, cwd) :: rest.
Proof.
  destruct (subprocess_run sys command cwd w) as [[cp|] w'] eqn:E.
  - destruct (Z.eq_dec (returncode cp) 0) as [Z0|NZ].
    + rewrite (bind_run_zero _ _ _ _ _ _ E Z0); simpl; eauto.
    + rewrite (bind_run_nonzero _ _ _ _ _ _ E NZ); simpl; eauto.
  - rewrite (bind_run_oserror _ _ _ _ _ E); simpl; eauto.
Qed.

(** The fall-back to a module-level URL, as a value. *)
Lemma url_fallback_then {B} given global line (k : option string -> M World B) w :
  outcome
    (bind (if negb (truthy given) && nonempty global
           then bind (print line) (fun _ => ret (Some global))
           else ret given) k w)
  = outcome (k (effective_url given global) w).
Proof.
  unfold effective_url. destruct (negb (truthy given) && nonempty global).
  - now rewrite bind_assoc, print_then, bind_ret.
  - now rewrite bind_ret.
Qed.

Lemma effective_url_given given global :
  truthy given = true -> effective_url given global = given.
Proof. intros T; unfold effective_url; now rewrite T. Qed.

Lemma effective_url_cleared given :
  effective_url given "" = given.
Proof. unfold effective_url; simpl. now rewrite andb_false_r. Qed.

Lemma effective_url_truthy given global :
  nonempty global = true -> truthy (effective_url given global) = true.
Proof.
  intros G; unfold effective_url; rewrite G, andb_true_r.
  destruct (truthy given) eqn:T; simpl; auto.
Qed.

(** *** What a computation may issue *)

Lemma io_bind {A B} P (m : M World A) (k : A -> M World B) :
  issues_only P m -> (forall a, issues_only P (k a)) -> issues_only P (bind m k).
Proof.
  intros Hm Hk w c. unfold bind.
  destruct (m w) as [[a|x|e] t w1] eqn:E; simpl.
  - rewrite commands_of_app, in_app_iff. intros [I|I].
    + apply (Hm w). now rewrite E.
    + now apply (Hk a w1).
  - intros I; apply (Hm w); now rewrite E.
  - intros I; apply (Hm w); now rewrite E.
Qed.

Lemma io_weaken {A} (P Q : string * option string -> Prop) (m : M World A) :
  (forall c, P c -> Q c) -> issues_only P m -> issues_only Q m.
Proof. intros PQ H w c I. apply PQ, (H w c I). Qed.

Lemma io_print P line : issues_only P (@print World line).
Proof. intros w c []. Qed.

Lemma io_ret {A} P (a : A) : issues_only P (@ret World A a).
Proof. intros w c []. Qed.

Lemma io_exit {A} P code : issues_only P (@sys_exit World A code).
Proof. intros w c []. Qed.

Lemma io_makedirs P d : issues_only P (os_makedirs sys d).
Proof. intros w c. unfold os_makedirs. destruct (makedirs sys d w); intros []. Qed.

Lemma io_exists P p : issues_only P (os_path_exists sys p).
Proof. intros w c []. Qed.

Lemma io_run (P : string * option string -> Prop) command cwd :
  P (command, cwd) -> issues_only P (run_command sys command cwd).
Proof.
  intros H w c.
  destruct (subprocess_run sys command cwd w) as [[cp|] w'] eqn:E.
  - destruct (Z.eq_dec (returncode cp) 0) as [Z0|NZ].
    + rewrite (run_command_zero _ _ _ _ _ E Z0); simpl. intros [<-|[]]; auto.
    + rewrite (run_command_nonzero _ _ _ _ _ E NZ); simpl. intros [<-|[]]; auto.
  - rewrite (run_command_oserror _ _ _ _ E); simpl. intros [<-|[]]; auto.
Qed.

(** Decompose a script into its steps. *)
Ltac io :=
  repeat first
    [ apply io_print | apply io_ret | apply io_exit | apply io_makedirs
    | apply io_exists
    | apply io_run
    | apply io_bind; [| intros ?]
    | match goal with
      | |- issues_only _ (if ?b then _ else _) => destruct b eqn:?
      end ].

(** *** setup_repositories *)

Lemma setup_main_present url d w :
  path_exists sys (path_join d ".git") w = true ->
  setup_main sys url d w
  = mkRun (Returned tt) [Printed ("Main repository already exists in " ++ d)] w.
Proof. intros E. unfold setup_main. rewrite bind_exists, E. reflexivity. Qed.

Lemma setup_sub_present url d w :
  path_exists sys (path_join d ".git") w = true ->
  setup_sub sys url d w
  = mkRun (Returned tt) [Printed ("Sub repository already exists in " ++ d)] w.
Proof. intros E. unfold setup_sub. rewrite bind_exists, E. reflexivity. Qed.

Lemma setup_main_absent url d w :
  path_exists sys (path_join d ".git") w = false ->
  outcome (setup_main sys url d w)
  = fail_stop sys [if truthy url then clone_command url d else init_command d] w.
Proof.
  intros E. unfold setup_main. rewrite bind_exists, E.
  unfold clone_command, init_command. destruct (truthy url); script.
Qed.

Lemma setup_sub_absent_url url d w :
  path_exists sys (path_join d ".git") w = false ->
  truthy url = true ->
  outcome (setup_sub sys url d w) = fail_stop sys [clone_command url d] w.
Proof.
  intros E T. unfold setup_sub. rewrite bind_exists, E, T.
  unfold clone_command. script.
Qed.

Lemma setup_sub_absent_no_url url d w :
  path_exists sys (path_join d ".git") w = false ->
  truthy url = false ->
  setup_sub sys url d w
  = mkRun (Exited 1) [Printed "Error: No sub repository URL provided"] w.
Proof.
  intros E T. unfold setup_sub. rewrite bind_exists, E, T. reflexivity.
Qed.

Lemma setup_main_issues url d :
  issues_only
    (fun c => (c = clone_command url d /\ truthy url = true)
              \/ (c = init_command d /\ truthy url = false))
    (setup_main sys url d).
Proof.
  unfold setup_main. io; auto.
Qed.

Lemma setup_sub_issues url d :
  issues_only (fun c => c = clone_command url d /\ truthy url = true)
    (setup_sub sys url d).
Proof.
  unfold setup_sub. io; auto.
Qed.

(** After the directories are made, a setup is the main part followed
    by the sub part, each with its effective URL. *)
Lemma setup_repositories_parts mu su md sd w w1 w2 :
  makedirs sys md w = Some w1 ->
  makedirs sys sd w1 = Some w2 ->
  outcome (setup_repositories sys globals mu su md sd w)
  = outcome
      (bind (setup_main sys (effective_url mu (mainGitHubURL globals)) md)
         (fun _ =>
            bind (setup_sub sys (effective_url su (subGitHubURL globals)) sd)
              (fun _ => ret (md, sd))) w2).
Proof.
  intros E1 E2. unfold setup_repositories.
  rewrite (makedirs_then _ _ _ _ E1), (makedirs_then _ _ _ _ E2).
  now rewrite !url_fallback_then.
Qed.

Lemma setup_repositories_issues mu su md sd :
  issues_only (provisioning globals mu su md sd)
    (setup_repositories sys globals mu su md sd).
Proof.
  unfold setup_repositories.
  apply io_bind; [apply io_makedirs | intros _].
  apply io_bind; [apply io_makedirs | intros _].
  intros w c.
  assert (K : forall w',
    In c (commands_of (trace
      (bind (setup_main sys (effective_url mu (mainGitHubURL globals)) md)
         (fun _ =>
            bind (setup_sub sys (effective_url su (subGitHubURL globals)) sd)
              (fun _ => ret (md, sd))) w'))) ->
    provisioning globals mu su md sd c).
  { intros w'. apply io_bind.
    - eapply io_weaken; [|apply setup_main_issues].
      unfold provisioning; intros c' [H|H]; auto.
    - intros _. apply io_bind; [|intros _; apply io_ret].
      eapply io_weaken; [|apply setup_sub_issues].
      unfold provisioning; intros c' H; auto. }
  unfold effective_url in K.
  destruct (negb (truthy mu) && nonempty (mainGitHubURL globals));
    destruct (negb (truthy su) && nonempty (subGitHubURL globals));
    repeat (first [rewrite bind_assoc | rewrite bind_print | rewrite bind_ret];
            simpl trace; simpl commands_of);
    apply K.
Qed.

Lemma bind_result {A B} (m : M World A) (k : A -> M World B) w b :
  result (bind m k w) = Returned b ->
  exists a, result (m w) = Returned a /\ result (k a (final (m w))) = Returned b.
Proof.
  unfold bind. destruct (m w) as [[a|c|e] t w1]; simpl; try discriminate.
  eauto.
Qed.

Lemma setup_repositories_value mu su md sd w x :
  result (setup_repositories sys globals mu su md sd w) = Returned x ->
  x = (md, sd).
Proof.
  unfold setup_repositories. intros R.
  repeat (apply bind_result in R; destruct R as [? [_ R]]).
  simpl in R. congruence.
Qed.

Lemma setup_repositories_dirs mu su md sd w x :
  result (setup_repositories sys globals mu su md sd w) = Returned x ->
  exists w1 w2, makedirs sys md w = Some w1 /\ makedirs sys sd w1 = Some w2.
Proof.
  unfold setup_repositories. intros R.
  apply bind_result in R. destruct R as [[] [R1 R]].
  unfold os_makedirs in R1, R.
  destruct (makedirs sys md w) as [w1|]; simpl in R1, R; [|discriminate].
  apply bind_result in R. destruct R as [[] [R2 _]].
  unfold os_makedirs in R2.
  destruct (makedirs sys sd w1) as [w2|] eqn:M2; simpl in R2; [|discriminate].
  exists w1, w2; auto.
Qed.

Lemma outcome_bind_unit {B} (m : M World unit) (k : unit -> M World B) w :
  outcome (bind m k w)
  = let '(r, cs, w1) := outcome (m w) in
    match r with
    | Returned _ =>
        let '(r2, cs2, w2) := outcome (k tt w1) in (r2, (cs ++ cs2)%list, w2)
    | Exited c => (Exited c, cs, w1)
    | Raised e => (Raised e, cs, w1)
    end.
Proof.
  unfold outcome, bind. destruct (m w) as [[[]|c|e] t w1]; simpl; auto.
  now rewrite commands_of_app.
Qed.

Lemma outcome_bind_returned {A B} (m : M World A) (k : A -> M World B) w a t w1 :
  m w = mkRun (Returned a) t w1 ->
  outcome (bind m k w)
  = let '(r2, cs2, w2) := outcome (k a w1) in
    (r2, (commands_of t ++ cs2)%list, w2).
Proof.
  intros E. unfold outcome, bind. rewrite E; simpl.
  now rewrite commands_of_app.
Qed.

Lemma outcome_result {A} (r : Run World A) x cs w :
  outcome r = (Returned x, cs, w) -> exists a, result r = Returned a.
Proof.
  unfold outcome. destruct (result r); simpl; intros E; inversion E; eauto.
Qed.

(** One command, fail-stop: it returned only if the child exited with
    status zero. *)
Lemma fail_stop_one c d w x cs w' :
  fail_stop sys [(c, d)] w = (Returned x, cs, w') ->
  exists cp, subprocess_run sys c d w = (Some cp, w') /\ returncode cp = 0%Z.
Proof.
  simpl. destruct (subprocess_run sys c d w) as [[cp|] w1]; [|discriminate].
  destruct (returncode cp =? 0)%Z eqn:Z0; [|discriminate].
  intros E; inversion E; subst. apply Z.eqb_eq in Z0. eauto.
Qed.

(** A setup in a world where both repositories are in place and making
    their directories changes nothing. *)
Lemma setup_repositories_noop mu su md sd w w1 w2 :
  makedirs sys md w = Some w1 ->
  makedirs sys sd w1 = Some w2 ->
  path_exists sys (path_join md ".git") w2 = true ->
  path_exists sys (path_join sd ".git") w2 = true ->
  outcome (setup_repositories sys globals mu su md sd w) = (Returned tt, [], w2).
Proof.
  intros M1 M2 P1 P2.
  rewrite (setup_repositories_parts _ _ _ _ _ _ _ M1 M2).
  rewrite (outcome_bind_returned _ _ _ _ _ _ (setup_main_present _ _ _ P1)).
  rewrite (outcome_bind_returned _ _ _ _ _ _ (setup_sub_present _ _ _ P2)).
  reflexivity.
Qed.

(** With main in place, every command of a setup is the clone of sub. *)
Lemma setup_repositories_main_present mu su md sd w w1 w2 c :
  makedirs sys md w = Some w1 ->
  makedirs sys sd w1 = Some w2 ->
  path_exists sys (path_join md ".git") w2 = true ->
  In c (commands_of (trace (setup_repositories sys globals mu su md sd w))) ->
  c = clone_command (effective_url su (subGitHubURL globals)) sd.
Proof.
  intros M1 M2 P1.
  rewrite commands_of_outcome, (setup_repositories_parts _ _ _ _ _ _ _ M1 M2).
  rewrite (outcome_bind_returned _ _ _ _ _ _ (setup_main_present _ _ _ P1)).
  pose proof (io_bind _ _ (fun _ : unit => @ret World _ (md, sd))
                (setup_sub_issues (effective_url su (subGitHubURL globals)) sd)
                (fun _ => io_ret _ _) w2 c) as I.
  rewrite commands_of_outcome in I.
  destruct (outcome (bind (setup_sub sys (effective_url su (subGitHubURL globals)) sd)
                       (fun _ => ret (md, sd)) w2)) as [[r cs] w3].
  cbn [fst snd commands_of app] in *. intros H. now destruct (I H).
Qed.

Section Twice.

Variables (mu su : option string) (md sd : string).

Let um := effective_url mu (mainGitHubURL globals).
Let us := effective_url su (subGitHubURL globals).

(** What git and the file system are taken to guarantee: a clone or
    an initialization that succeeded leaves the metadata directory in
    place, the clone of sub does not remove the metadata of main, and
    making a directory that holds metadata changes nothing. *)
Hypothesis clone_main_creates : forall w cp w',
  subprocess_run sys (fst (clone_command um md)) None w = (Some cp, w') ->
  returncode cp = 0%Z -> path_exists sys (path_join md ".git") w' = true.
Hypothesis init_main_creates : forall w cp w',
  subprocess_run sys "git init" (Some md) w = (Some cp, w') ->
  returncode cp = 0%Z -> path_exists sys (path_join md ".git") w' = true.
Hypothesis clone_sub_creates : forall w cp w',
  subprocess_run sys (fst (clone_command us sd)) None w = (Some cp, w') ->
  returncode cp = 0%Z -> path_exists sys (path_join sd ".git") w' = true.
Hypothesis clone_sub_keeps_main : forall w,
  path_exists sys (path_join md ".git") w = true ->
  path_exists sys (path_join md ".git")
    (snd (subprocess_run sys (fst (clone_command us sd)) None w)) = true.
Hypothesis makedirs_main_noop : forall w,
  path_exists sys (path_join md ".git") w = true -> makedirs sys md w = Some w.
Hypothesis makedirs_sub_noop : forall w,
  path_exists sys (path_join sd ".git") w = true -> makedirs sys sd w = Some w.

Lemma setup_sub_leaves_both w x cs w' :
  path_exists sys (path_join md ".git") w = true ->
  outcome (bind (setup_sub sys us sd) (fun _ => ret (md, sd)) w)
  = (Returned x, cs, w') ->
  path_exists sys (path_join md ".git") w' = true
  /\ path_exists sys (path_join sd ".git") w' = true.
Proof.
  intros P1. rewrite outcome_bind_unit.
  destruct (path_exists sys (path_join sd ".git") w) eqn:P2.
  - rewrite (setup_sub_present _ _ _ P2); simpl.
    intros E; inversion E; subst; auto.
  - destruct (truthy us) eqn:T.
    + rewrite (setup_sub_absent_url _ _ _ P2 T).
      destruct (fail_stop sys [clone_command us sd] w) as [[r cs1] w1] eqn:F.
      destruct r as [[]|c|e]; simpl; try discriminate.
      intros E; inversion E; subst.
      destruct (fail_stop_one _ _ _ _ _ _ F) as [cp [R Z0]].
      split.
      * specialize (clone_sub_keeps_main w P1). simpl in *.
        now rewrite R in clone_sub_keeps_main.
      * apply (clone_sub_creates w cp); auto.
    + rewrite (setup_sub_absent_no_url _ _ _ P2 T); simpl. discriminate.
Qed.

Lemma setup_repositories_leaves_both w x :
  result (setup_repositories sys globals mu su md sd w) = Returned x ->
  let w' := final (setup_repositories sys globals mu su md sd w) in
  path_exists sys (path_join md ".git") w' = true
  /\ path_exists sys (path_join sd ".git") w' = true.
Proof.
  intros R.
  destruct (setup_repositories_dirs _ _ _ _ _ _ R) as [w1 [w2 [M1 M2]]].
  assert (O : outcome (setup_repositories sys globals mu su md sd w)
              = (Returned tt,
                 commands_of (trace (setup_repositories sys globals mu su md sd w)),
                 final (setup_repositories sys globals mu su md sd w)))
    by (unfold outcome; now rewrite R).
  rewrite (setup_repositories_parts mu su md sd w w1 w2 M1 M2) in O.
  fold um us in O. cbv zeta.
  revert O.
  generalize (final (setup_repositories sys globals mu su md sd w)) as wf.
  generalize (commands_of (trace (setup_repositories sys globals mu su md sd w)))
    as cs.
  intros cs wf O.
  destruct (path_exists sys (path_join md ".git") w2) eqn:P1.
  - rewrite (outcome_bind_returned _ _ _ _ _ _ (setup_main_present _ _ _ P1)) in O.
    destruct (outcome (bind (setup_sub sys us sd) (fun _ => ret (md, sd)) w2))
      as [[r2 cs2] w3] eqn:S.
    injection O as -> _ ->.
    apply (setup_sub_leaves_both w2 tt cs2 wf P1 S).
  - rewrite outcome_bind_unit, (setup_main_absent _ _ _ P1) in O.
    destruct (fail_stop sys
                [if truthy um then clone_command um md else init_command md] w2)
      as [[r cs1] w3] eqn:F.
    destruct r as [[]|c|e]; cbv iota beta in O; try discriminate O.
    destruct (outcome (bind (setup_sub sys us sd) (fun _ => ret (md, sd)) w3))
      as [[r2 cs2] w4] eqn:S.
    injection O as -> _ ->.
    apply (setup_sub_leaves_both w3 tt cs2 wf); auto.
    destruct (truthy um).
    + destruct (fail_stop_one _ _ _ _ _ _ F) as [cp [Rn Z0]].
      apply (clone_main_creates w2 cp); auto.
    + destruct (fail_stop_one _ _ _ _ _ _ F) as [cp [Rn Z0]].
      apply (init_main_creates w2 cp); auto.
Qed.

Lemma setup_repositories_twice w :
  let r1 := setup_repositories sys globals mu su md sd w in
  let r2 := setup_repositories sys globals mu su md sd (final r1) in
  result r1 = Returned (md, sd) ->
  result r2 = Returned (md, sd)
  /\ commands_of (trace r2) = []
  /\ final r2 = final r1.
Proof.
  intros r1 r2 R.
  destruct (setup_repositories_leaves_both w _ R) as [P1 P2]. fold r1 in P1, P2.
  pose proof (setup_repositories_noop mu su md sd (final r1) _ _
                (makedirs_main_noop _ P1) (makedirs_sub_noop _ P2) P1 P2) as E.
  fold r2 in E. destruct (outcome_result _ _ _ _ E) as [a Ra].
  unfold outcome in E. inversion E.
  rewrite Ra, (setup_repositories_value _ _ _ _ _ _ Ra). auto.
Qed.

End Twice.

(** Skipping and repeating a setup.  Where the metadata directory [.git]
    of a directory is already there, the part of the setup for that directory prints a notice and
    does nothing else: no clone, no initialization, the world as it was.
    A setup that finds main in place issues nothing but the clone of sub,
    and a setup that finds both in place issues no command at all.
    Hence, with git and the file system behaving as [provisioning_laws]
    says, a second setup with the same arguments after a first one that
    returned issues no command and leaves the world the first one
    produced. *)
Theorem provisioning_is_idempotent mu su md sd :
  (forall url w,
      path_exists sys (path_join md ".git") w = true ->
      setup_main sys url md w
      = mkRun (Returned tt) [Printed ("Main repository already exists in " ++ md)] w)
  /\ (forall url w,
      path_exists sys (path_join sd ".git") w = true ->
      setup_sub sys url sd w
      = mkRun (Returned tt) [Printed ("Sub repository already exists in " ++ sd)] w)
  /\ (forall w w1 w2 c,
      makedirs sys md w = Some w1 ->
      makedirs sys sd w1 = Some w2 ->
      path_exists sys (path_join md ".git") w2 = true ->
      In c (commands_of (trace (setup_repositories sys globals mu su md sd w))) ->
      c = ("git clone " ++ fmt (effective_url su (subGitHubURL globals)) ++ " " ++ sd,
           None))
  /\ (forall w w1 w2,
      makedirs sys md w = Some w1 ->
      makedirs sys sd w1 = Some w2 ->
      path_exists sys (path_join md ".git") w2 = true ->
      path_exists sys (path_join sd ".git") w2 = true ->
      outcome (setup_repositories sys globals mu su md sd w) = (Returned tt, [], w2))
  /\ (provisioning_laws sys (effective_url mu (mainGitHubURL globals))
                            (effective_url su (subGitHubURL globals)) md sd ->
      forall w,
        let r1 := setup_repositories sys globals mu su md sd w in
        let r2 := setup_repositories sys globals mu su md sd (final r1) in
        result r1 = Returned (md, sd) ->
        result r2 = Returned (md, sd)
        /\ commands_of (trace r2) = []
        /\ final r2 = final r1).
Proof.
  repeat split.
  - intros; now apply setup_main_present.
  - intros; now apply setup_sub_present.
  - intros w w1 w2 c M1 M2 P1 I.
    apply (setup_repositories_main_present mu su md sd w w1 w2 c M1 M2 P1 I).
  - intros; eapply setup_repositories_noop; eauto.
  - destruct H as (L1 & L2 & L3 & L4 & L5 & L6).
    apply (setup_repositories_twice mu su md sd L1 L2 L3 L4 L5 L6 w H0).
  - destruct H as (L1 & L2 & L3 & L4 & L5 & L6).
    apply (setup_repositories_twice mu su md sd L1 L2 L3 L4 L5 L6 w H0).
  - destruct H as (L1 & L2 & L3 & L4 & L5 & L6).
    apply (setup_repositories_twice mu su md sd L1 L2 L3 L4 L5 L6 w H0).
Qed.

(** *** The policy on a missing URL *)

Lemma setup_main_first_command mu su md sd w w1 w2 :
  makedirs sys md w = Some w1 ->
  makedirs sys sd w1 = Some w2 ->
  path_exists sys (path_join md ".git") w2 = false ->
  let um := effective_url mu (mainGitHubURL globals) in
  exists rest,
    commands_of (trace (setup_repositories sys globals mu su md sd w))
    = (if truthy um then clone_command um md else init_command md) :: rest.
Proof.
  intros M1 M2 P1 um.
  rewrite commands_of_outcome, (setup_repositories_parts _ _ _ _ _ _ _ M1 M2).
  fold um. rewrite <- commands_of_outcome.
  unfold setup_main. rewrite bind_assoc, bind_exists, P1.
  unfold clone_command, init_command.
  destruct (truthy um);
    rewrite !bind_assoc, bind_print; cbn [trace commands_of];
    rewrite !bind_assoc; apply run_first.
Qed.

Lemma effective_url_falsy given global :
  truthy (effective_url given global) = false ->
  global = "" /\ truthy given = false.
Proof.
  unfold effective_url. destruct (truthy given) eqn:T; simpl.
  - rewrite T; discriminate.
  - destruct global; simpl; auto. discriminate.
Qed.

Lemma run_eta {A} (r : Run World A) : r = mkRun (result r) (trace r) (final r).
Proof. now destruct r. Qed.

Lemma os_makedirs_made d w w' :
  makedirs sys d w = Some w' ->
  os_makedirs sys d w = mkRun (Returned tt) [MadeDirs d] w'.
Proof. intros E. unfold os_makedirs. now rewrite E. Qed.

(** The fall-back to a module-level URL, as a run. *)
Lemma url_fallback_run given global line w :
  (if negb (truthy given) && nonempty global
   then bind (print line) (fun _ => ret (Some global))
   else ret given : M World (option string)) w
  = mkRun (Returned (effective_url given global))
      (if negb (truthy given) && nonempty global then [Printed line] else []) w.
Proof.
  unfold effective_url. now destruct (negb (truthy given) && nonempty global).
Qed.

(** A setup whose main part returned, as the run of its sub part
    after what came before. *)
Lemma setup_repositories_run mu su md sd w w1 w2 :
  let um := effective_url mu (mainGitHubURL globals) in
  let us := effective_url su (subGitHubURL globals) in
  let rm := setup_main sys um md w2 in
  let rs := bind (setup_sub sys us sd) (fun _ => ret (md, sd)) (final rm) in
  makedirs sys md w = Some w1 ->
  makedirs sys sd w1 = Some w2 ->
  result rm = Returned tt ->
  setup_repositories sys globals mu su md sd w
  = mkRun (result rs)
      (MadeDirs md :: MadeDirs sd
       :: fallback_notice "main" mu (mainGitHubURL globals)
       ++ fallback_notice "sub" su (subGitHubURL globals)
       ++ trace rm ++ trace rs)
      (final rs).
Proof.
  intros um us rm rs M1 M2 R.
  assert (E : setup_main sys um md w2 = mkRun (Returned tt) (trace rm) (final rm))
    by (rewrite (run_eta (setup_main sys um md w2)); fold rm; now rewrite R).
  unfold setup_repositories.
  rewrite (bind_returned _ _ _ _ _ _ (os_makedirs_made _ _ _ M1)).
  rewrite (bind_returned _ _ _ _ _ _ (os_makedirs_made _ _ _ M2)).
  rewrite (bind_returned _ _ _ _ _ _ (url_fallback_run _ _ _ _)). cbv beta.
  rewrite (bind_returned _ _ _ _ _ _ (url_fallback_run _ _ _ _)). cbv beta.
  fold um us. rewrite (bind_returned _ _ _ _ _ _ E). fold rs.
  reflexivity.
Qed.

Lemma fallback_notice_silent label given global :
  commands_of (fallback_notice label given global) = [].
Proof.
  unfold fallback_notice. now destruct (negb (truthy given) && nonempty global).
Qed.

Lemma effective_url_default given global :
  truthy given = false -> nonempty global = true ->
  effective_url given global = Some global.
Proof. intros T G. unfold effective_url. now rewrite T, G. Qed.

(** The sub part with its metadata missing and a URL to clone. *)
Lemma setup_sub_clones url d w :
  path_exists sys (path_join d ".git") w = false ->
  truthy url = true ->
  forall md sd : string,
    outcome (bind (setup_sub sys url d) (fun _ => ret (md, sd)) w)
    = fail_stop sys [clone_command url d] w.
Proof.
  intros P T md sd. rewrite outcome_bind_unit, (setup_sub_absent_url _ _ _ P T).
  destruct (fail_stop sys [clone_command url d] w) as [[r cs] w'].
  destruct r as [[]|c|e]; try reflexivity.
  unfold outcome, ret. cbv beta iota. cbn [result trace final void commands_of].
  now rewrite app_nil_r.
Qed.

(** C4, as the code has it.  A URL is missing only when none is supplied
    and the module-level variable is empty; a missing argument with a
    non-empty module-level URL is replaced by that URL, which is cloned.
    Take a setup whose directories were made.  When its main part
    returned and sub then has no metadata, no sub URL is supplied and
    [subGitHubURL] is empty, the setup prints the error and exits with
    status 1, having issued the commands of the main part and none for
    sub; started from [main], the same lack of a sub URL ends the run
    before anything else happens.  When main has no metadata, no main URL
    is supplied and [mainGitHubURL] is empty, the main part is [git init]
    in the main directory, and that is the first command of the setup.
    With a non-empty module-level URL in either place, the command is
    the clone of that URL. *)
Theorem missing_url_policy mu su md sd args w w1 w2 :
  makedirs sys md w = Some w1 ->
  makedirs sys sd w1 = Some w2 ->
  let um := effective_url mu (mainGitHubURL globals) in
  let rm := setup_main sys um md w2 in
  let r := setup_repositories sys globals mu su md sd w in
  (truthy su = false ->
   subGitHubURL globals = "" ->
   result rm = Returned tt ->
   path_exists sys (path_join sd ".git") (final rm) = false ->
   r = mkRun (Exited 1)
         (MadeDirs md :: MadeDirs sd
          :: fallback_notice "main" mu (mainGitHubURL globals)
          ++ trace rm ++ [Printed "Error: No sub repository URL provided"])
         (final rm)
   /\ commands_of (trace r) = commands_of (trace rm))
  /\ (action args = Setup ->
      truthy (sub_repo args) = false ->
      subGitHubURL globals = "" ->
      main sys globals args w
      = mkRun (Exited 1)
          [Printed ("Error: No sub repository URL provided. Please either set "
                    ++ "the global subGitHubURL or provide --sub-repo")] w)
  /\ (truthy mu = false ->
      mainGitHubURL globals = "" ->
      path_exists sys (path_join md ".git") w2 = false ->
      outcome rm = fail_stop sys [("git init", Some md)] w2
      /\ exists rest, commands_of (trace r) = ("git init", Some md) :: rest)
  /\ (truthy mu = false ->
      nonempty (mainGitHubURL globals) = true ->
      path_exists sys (path_join md ".git") w2 = false ->
      outcome rm
      = fail_stop sys [("git clone " ++ mainGitHubURL globals ++ " " ++ md, None)] w2
      /\ exists rest,
           commands_of (trace r)
           = ("git clone " ++ mainGitHubURL globals ++ " " ++ md, None) :: rest)
  /\ (truthy su = false ->
      nonempty (subGitHubURL globals) = true ->
      result rm = Returned tt ->
      path_exists sys (path_join sd ".git") (final rm) = false ->
      outcome r
      = let '(res, cs, w4) :=
          fail_stop sys [("git clone " ++ subGitHubURL globals ++ " " ++ sd, None)]
            (final rm) in
        (res, (commands_of (trace rm) ++ cs)%list, w4)).
Proof.
  intros M1 M2 um rm r.
  pose proof (setup_repositories_run mu su md sd w w1 w2 M1 M2) as RUN.
  cbv zeta in RUN. fold um rm r in RUN.
  split; [|split; [|split; [|split]]].
  - intros T G R P. specialize (RUN R).
    assert (Tu : truthy (effective_url su (subGitHubURL globals)) = false)
      by (rewrite G, effective_url_cleared; exact T).
    rewrite (bind_exited _ _ _ _ _ _ (setup_sub_absent_no_url _ _ _ P Tu)) in RUN.
    cbn [result trace final] in RUN.
    assert (N : fallback_notice "sub" su (subGitHubURL globals) = [])
      by (unfold fallback_notice; rewrite G; cbn [nonempty]; now rewrite andb_false_r).
    rewrite N in RUN. cbn [app] in RUN. split; [exact RUN|].
    rewrite RUN. cbn [trace commands_of].
    rewrite !commands_of_app, fallback_notice_silent. cbn [commands_of app].
    apply app_nil_r.
  - intros A S G. unfold main. rewrite A, S, G. reflexivity.
  - intros T G P1.
    assert (Tu : truthy um = false)
      by (unfold um; rewrite G, effective_url_cleared; exact T).
    split.
    + unfold rm. rewrite (setup_main_absent _ _ _ P1), Tu. reflexivity.
    + destruct (setup_main_first_command mu su md sd w w1 w2 M1 M2 P1) as [rest E].
      exists rest. unfold r. rewrite E. fold um. rewrite Tu. reflexivity.
  - intros T G P1.
    assert (Eu : um = Some (mainGitHubURL globals))
      by (apply effective_url_default; auto).
    assert (Tu : truthy um = true) by (rewrite Eu; exact G).
    split.
    + unfold rm. rewrite (setup_main_absent _ _ _ P1), Tu, Eu. reflexivity.
    + destruct (setup_main_first_command mu su md sd w w1 w2 M1 M2 P1) as [rest E].
      exists rest. unfold r. rewrite E. fold um. rewrite Tu, Eu. reflexivity.
  - intros T G R P.
    assert (Eu : effective_url su (subGitHubURL globals) = Some (subGitHubURL globals))
      by (apply effective_url_default; auto).
    assert (E : setup_main sys um md w2 = mkRun (Returned tt) (trace rm) (final rm))
      by (rewrite (run_eta (setup_main sys um md w2)); fold rm; now rewrite R).
    unfold r. rewrite (setup_repositories_parts _ _ _ _ _ _ _ M1 M2). fold um.
    rewrite (outcome_bind_returned _ _ _ _ _ _ E), Eu.
    rewrite (setup_sub_clones (Some (subGitHubURL globals)) sd (final rm) P G md sd).
    reflexivity.
Qed.

(** *** The initialization of main *)

Lemma add_sub_repo_as_remote_issues main_repo_dir sub_repo_dir remote_name :
  issues_only (fun c => fst c <> "git init")
    (add_sub_repo_as_remote sys main_repo_dir sub_repo_dir remote_name).
Proof.
  unfold add_sub_repo_as_remote. io; simpl; discriminate.
Qed.

Lemma main_setup_issues args :
  action args = Setup ->
  issues_only (fun c => fst c = "git init" -> mainGitHubURL globals = "")
    (main sys globals args).
Proof.
  intros A. unfold main. rewrite A.
  apply io_bind.
  - destruct (negb _); [|apply io_ret].
    apply io_bind; [apply io_print | intros _; apply io_exit].
  - intros _. apply io_bind.
    + eapply io_weaken; [|apply setup_repositories_issues].
      intros c [[-> _]|[[-> T]|[-> _]]]; simpl; try discriminate.
      intros _. now destruct (effective_url_falsy _ _ T).
    + intros dirs. apply io_bind; [|intros _; apply io_print].
      eapply io_weaken; [|apply add_sub_repo_as_remote_issues].
      intros c N I. contradiction.
Qed.

(** *** add_sub_repo_as_remote *)

Lemma add_sub_repo_as_remote_outcome main_repo_dir sub_repo_dir remote_name w cp w1 :
  subprocess_run sys "git remote" (Some main_repo_dir) w = (Some cp, w1) ->
  returncode cp = 0%Z ->
  outcome (add_sub_repo_as_remote sys main_repo_dir sub_repo_dir remote_name w)
  = let '(r, cs, w2) :=
      fail_stop sys
        [if mem remote_name (split (strip (stdout cp)))
         then ("git remote set-url " ++ remote_name ++ " "
               ++ abspath sys sub_repo_dir, Some main_repo_dir)
         else ("git remote add " ++ remote_name ++ " "
               ++ abspath sys sub_repo_dir, Some main_repo_dir)] w1 in
    (r, ("git remote", Some main_repo_dir) :: cs, w2).
Proof.
  intros E Z0. unfold add_sub_repo_as_remote.
  unfold outcome at 1. rewrite (bind_run_zero _ _ _ _ _ _ E Z0).
  cbn [result trace final commands_of].
  destruct (mem remote_name (split (strip (stdout cp)))).
  - assert (O : outcome
                  (bind (print ("Remote '" ++ remote_name
                                ++ "' already exists, updating URL..."))
                     (fun _ =>
                        bind (run_command sys
                                ("git remote set-url " ++ remote_name ++ " "
                                 ++ abspath sys sub_repo_dir) (Some main_repo_dir))
                          (fun _ => ret tt)) w1)
                = fail_stop sys
                    [("git remote set-url " ++ remote_name ++ " "
                      ++ abspath sys sub_repo_dir, Some main_repo_dir)] w1)
      by script.
    rewrite <- O. reflexivity.
  - assert (O : outcome
                  (bind (print ("Adding sub repository as remote '" ++ remote_name
                                ++ "'..."))
                     (fun _ =>
                        bind (run_command sys
                                ("git remote add " ++ remote_name ++ " "
                                 ++ abspath sys sub_repo_dir) (Some main_repo_dir))
                          (fun _ => ret tt)) w1)
                = fail_stop sys
                    [("git remote add " ++ remote_name ++ " "
                      ++ abspath sys sub_repo_dir, Some main_repo_dir)] w1)
      by script.
    rewrite <- O. reflexivity.
Qed.

Lemma returned_unit (r : Run World unit) cs w :
  outcome r = (Returned tt, cs, w) ->
  result r = Returned tt /\ commands_of (trace r) = cs /\ final r = w.
Proof.
  unfold outcome. destruct (result r) as [[]|c|e]; simpl; intros E; inversion E; auto.
Qed.

Section Linking.

Variable table : World -> Remotes.table.
Variable ok : World -> Prop.
Variables main_repo_dir sub_repo_dir remote_name : string.

Let target := abspath sys sub_repo_dir.
Let link := add_sub_repo_as_remote sys main_repo_dir sub_repo_dir remote_name.

Hypothesis laws : remote_laws sys table ok main_repo_dir remote_name target.

Lemma link_when_present w :
  ok w ->
  mem remote_name (Remotes.names (table w)) = true ->
  exists w1,
    outcome (link w)
    = (Returned tt,
       [("git remote", Some main_repo_dir);
        ("git remote set-url " ++ remote_name ++ " " ++ target, Some main_repo_dir)],
       w1)
    /\ table w1 = Remotes.set_url remote_name target (table w)
    /\ ok w1.
Proof.
  intros K P. destruct laws as (L1 & _ & L3).
  destruct (L1 w K) as [cp [E [Z0 T]]].
  destruct (L3 w K P) as [cp2 [w1 [E2 [Z2 [T2 K2]]]]].
  exists w1. split; [|auto]. unfold link.
  rewrite (add_sub_repo_as_remote_outcome _ _ _ _ _ _ E Z0), T, P.
  fold target. cbn [fail_stop]. rewrite E2.
  apply Z.eqb_eq in Z2. now rewrite Z2.
Qed.

Lemma link_when_absent w :
  ok w ->
  mem remote_name (Remotes.names (table w)) = false ->
  exists w1,
    outcome (link w)
    = (Returned tt,
       [("git remote", Some main_repo_dir);
        ("git remote add " ++ remote_name ++ " " ++ target, Some main_repo_dir)],
       w1)
    /\ table w1 = Remotes.add remote_name target (table w)
    /\ ok w1.
Proof.
  intros K P. destruct laws as (L1 & L2 & _).
  destruct (L1 w K) as [cp [E [Z0 T]]].
  destruct (L2 w K P) as [cp2 [w1 [E2 [Z2 [T2 K2]]]]].
  exists w1. split; [|auto]. unfold link.
  rewrite (add_sub_repo_as_remote_outcome _ _ _ _ _ _ E Z0), T, P.
  fold target. cbn [fail_stop]. rewrite E2.
  apply Z.eqb_eq in Z2. now rewrite Z2.
Qed.

Lemma link_twice w :
  ok w ->
  NoDup (Remotes.names (table w)) ->
  let r1 := link w in
  let r2 := link (final r1) in
  result r1 = Returned tt
  /\ result r2 = Returned tt
  /\ Remotes.entries remote_name (table (final r1)) = [(remote_name, target)]
  /\ Remotes.entries remote_name (table (final r2)) = [(remote_name, target)]
  /\ table (final r2) = table (final r1)
  /\ commands_of (trace r2)
     = [("git remote", Some main_repo_dir);
        ("git remote set-url " ++ remote_name ++ " " ++ target, Some main_repo_dir)].
Proof.
  intros K D r1 r2.
  assert (F : exists w1,
             result r1 = Returned tt /\ final r1 = w1 /\ ok w1
             /\ mem remote_name (Remotes.names (table w1)) = true
             /\ Remotes.entries remote_name (table w1) = [(remote_name, target)]
             /\ Remotes.set_url remote_name target (table w1) = table w1).
  { destruct (mem remote_name (Remotes.names (table w))) eqn:P.
    - destruct (link_when_present w K P) as [w1 [O [T K1]]].
      destruct (returned_unit _ _ _ O) as (R & _ & Fw).
      exists w1. rewrite T. repeat split; auto.
      + now rewrite RemotesFacts.names_set_url.
      + apply RemotesFacts.entries_set_url; auto.
        now apply RemotesFacts.mem_In.
      + apply RemotesFacts.set_url_twice.
    - destruct (link_when_absent w K P) as [w1 [O [T K1]]].
      destruct (returned_unit _ _ _ O) as (R & _ & Fw).
      apply RemotesFacts.mem_false in P.
      exists w1. rewrite T. repeat split; auto.
      + apply RemotesFacts.mem_In. rewrite RemotesFacts.names_add.
        apply in_or_app; right; now left.
      + now apply RemotesFacts.entries_add.
      + now apply RemotesFacts.set_url_add. }
  destruct F as (w1 & R1 & F1 & K1 & P1 & E1 & S1).
  destruct (link_when_present w1 K1 P1) as [w2 [O2 [T2 _]]].
  unfold r2. rewrite F1.
  destruct (returned_unit _ _ _ O2) as (R2 & C2 & F2).
  rewrite R2, C2, F2, T2, S1. repeat split; auto.
Qed.

End Linking.

(** Linking and linking again.  [add_sub_repo_as_remote] lists the
    remotes of main, takes the
    blank-separated words of the list, and looks for one equal to the
    remote name; when there is one it retargets the remote with
    [git remote set-url], otherwise it adds it with [git remote add],
    in both cases to the absolute path of the sub directory.  Hence,
    with git behaving as [remote_laws] says and no name configured
    twice, linking twice succeeds twice, the second time by
    retargeting, and after either call the table holds exactly one
    entry of that name, pointing at the absolute path. *)
Theorem linking_is_idempotent (table : World -> Remotes.table) (ok : World -> Prop)
    main_repo_dir sub_repo_dir remote_name :
  let target := abspath sys sub_repo_dir in
  let link := add_sub_repo_as_remote sys main_repo_dir sub_repo_dir remote_name in
  let list_cmd := ("git remote", Some main_repo_dir) in
  let set_cmd :=
    ("git remote set-url " ++ remote_name ++ " " ++ target, Some main_repo_dir) in
  let add_cmd :=
    ("git remote add " ++ remote_name ++ " " ++ target, Some main_repo_dir) in
  (forall w cp w1,
      subprocess_run sys "git remote" (Some main_repo_dir) w = (Some cp, w1) ->
      returncode cp = 0%Z ->
      let listed := split (strip (stdout cp)) in
      (mem remote_name listed = true <-> In remote_name listed)
      /\ outcome (link w)
         = let '(r, cs, w2) :=
             fail_stop sys [if mem remote_name listed then set_cmd else add_cmd] w1 in
           (r, list_cmd :: cs, w2))
  /\ (remote_laws sys table ok main_repo_dir remote_name target ->
      forall w,
        ok w ->
        NoDup (Remotes.names (table w)) ->
        let r1 := link w in
        let r2 := link (final r1) in
        result r1 = Returned tt
        /\ result r2 = Returned tt
        /\ Remotes.entries remote_name (table (final r1)) = [(remote_name, target)]
        /\ Remotes.entries remote_name (table (final r2)) = [(remote_name, target)]
        /\ table (final r2) = table (final r1)
        /\ commands_of (trace r2) = [list_cmd; set_cmd]).
Proof.
  intros target link list_cmd set_cmd add_cmd. split.
  - intros w cp w1 E Z0 listed. split.
    + apply RemotesFacts.mem_In.
    + apply (add_sub_repo_as_remote_outcome _ _ _ _ _ _ E Z0).
  - intros L w K D. apply (link_twice table ok _ _ _ L w K D).
Qed.

(** *** main *)

Lemma main_push args w :
  action args = Push ->
  outcome (main sys globals args w)
  = fail_stop sys [("git push subrepo " ++ branch args, Some (main_dir args))] w.
Proof.
  intros A. unfold main. rewrite A. unfold push_to_repo. script.
Qed.

Lemma main_pull args w :
  action args = Pull ->
  outcome (main sys globals args w)
  = fail_stop sys [("git pull origin " ++ branch args, Some (main_dir args))] w.
Proof.
  intros A. unfold main. rewrite A. unfold pull_from_repo. script.
Qed.

(** C8.  The [push] action pushes the chosen branch to the remote
    [subrepo] and the [pull] action pulls the chosen branch from the
    remote [origin], both in the main directory; the one command line
    of either action depends on no other argument. *)
Theorem cli_remotes_are_fixed args w :
  (action args = Push ->
     outcome (main sys globals args w)
     = fail_stop sys [("git push subrepo " ++ branch args, Some (main_dir args))] w)
  /\ (action args = Pull ->
       outcome (main sys globals args w)
       = fail_stop sys [("git pull origin " ++ branch args, Some (main_dir args))] w).
Proof. split; [apply main_push | apply main_pull]. Qed.

(** C7.  A merge without a source branch prints an error and exits with
    status 1 without issuing any command and without touching the
    world; so does a setup for which no sub-repository URL is at hand,
    neither on the command line nor in the module-level variable. *)
Theorem configuration_errors_come_first args w :
  (action args = Merge ->
     truthy (source_branch args) = false ->
     main sys globals args w
     = mkRun (Exited 1)
         [Printed "Error: --source-branch is required for merge operation"] w)
  /\ (action args = Setup ->
       truthy (sub_repo args) = false ->
       subGitHubURL globals = "" ->
       main sys globals args w
       = mkRun (Exited 1)
           [Printed ("Error: No sub repository URL provided. Please either set "
                     ++ "the global subGitHubURL or provide --sub-repo")] w).
Proof.
  split.
  - intros A S. unfold main. rewrite A, S. reflexivity.
  - intros A S G. unfold main. rewrite A, S, G. reflexivity.
Qed.

End Facts.


(** * Concrete runs *)

Module ToyFacts.

Import PyStr.

(** Evaluate the closed string tests of the goal. *)
Ltac literals :=
  repeat match goal with
    | |- context [PyStr.split ?s] =>
        let v := eval vm_compute in (PyStr.split s) in
        progress change (PyStr.split s) with v
    | |- context [PyStr.path_join ?a ?b] =>
        let v := eval vm_compute in (PyStr.path_join a b) in
        progress change (PyStr.path_join a b) with v
    | |- context [String.eqb ?a ?b] =>
        let v := eval vm_compute in (String.eqb a b) in
        match v with
        | true => change (String.eqb a b) with true
        | false => change (String.eqb a b) with false
        end
    | |- context [PyStr.mem ?a ?l] =>
        let v := eval vm_compute in (PyStr.mem a l) in
        match v with
        | true => change (PyStr.mem a l) with true
        | false => change (PyStr.mem a l) with false
        end
    end.

Ltac toy :=
  unfold Toy.system, subprocess_run, path_exists, makedirs, abspath, Toy.run,
    Toy.mkdirs, clone_command, PyStr.fmt, fst;
  literals; unfold Toy.git; literals; cbv beta iota.

Ltac cases :=
  repeat match goal with
    | |- context [if ?b then _ else _] => destruct b eqn:?
    end.

Lemma mem_head (p : string) (ps : list string) : mem p (p :: ps) = true.
Proof. unfold mem; simpl. now rewrite String.eqb_refl. Qed.

Lemma mem_tail (p q : string) (ps : list string) :
  mem p ps = true -> mem p (q :: ps) = true.
Proof. unfold mem; simpl. intros ->. apply orb_true_r. Qed.

Lemma provisioning_laws_hold :
  provisioning_laws Toy.system (Some "m.git") (Some "s.git") "main_repo" "sub_repo".
Proof.
  unfold provisioning_laws. repeat split.
  - intros w cp w'. toy. cases; intros E Z0; inversion E; subst;
      try discriminate Z0. apply mem_head.
  - intros w cp w'. toy. cases; intros E Z0; inversion E; subst;
      try discriminate Z0. apply mem_head.
  - intros w cp w'. toy. cases; intros E Z0; inversion E; subst;
      try discriminate Z0. apply mem_head.
  - intros w P. toy. cases; cbn [snd]; auto using mem_tail.
  - intros w P. toy. unfold Toy.is_dir. literals.
    revert P. toy. intros ->. now rewrite orb_true_r.
  - intros w P. toy. unfold Toy.is_dir. literals.
    revert P. toy. intros ->. now rewrite orb_true_r.
Qed.

Lemma remote_laws_hold :
  remote_laws Toy.system Toy.remotes Toy.linkable "main_repo" "subrepo" "/srv/sub_repo".
Proof.
  unfold remote_laws, Toy.linkable. repeat split.
  - intros w (D & F & R). toy. rewrite D, F. literals. cbv beta iota.
    exists (Toy.ok (Toy.listing (Toy.remotes w))). repeat split.
    destruct R as [R|[R|R]]; rewrite R; reflexivity.
  - intros w (D & F & R) N. toy. rewrite D, F. literals. cbv beta iota.
    destruct R as [R|[R|R]]; rewrite R in N; try discriminate N.
    rewrite R. literals.
    eexists _, _. repeat split; cbn [Toy.with_remotes Toy.remotes Toy.paths Toy.failing];
      auto.
  - intros w (D & F & R) N. toy. rewrite D, F. literals. cbv beta iota.
    destruct R as [R|[R|R]]; rewrite R in N; try discriminate N;
      rewrite R; literals;
      eexists _, _; repeat split;
      cbn [Toy.with_remotes Toy.remotes Toy.paths Toy.failing]; auto.
Qed.

End ToyFacts.

(** The theorems above, applied to runs of the concrete system. *)

Lemma run_command_returns_or_terminates_witness :
  (run_command Toy.system "git remote" (Some "main_repo") Toy.provisioned
   = mkRun (Returned "subrepo") [Issued "git remote" (Some "main_repo")] Toy.provisioned
   /\ PyStr.trimmed_of (Toy.listing (Toy.remotes Toy.provisioned)) "subrepo")
  /\ (bind (run_command Toy.system "git commit -m 'again'" (Some "main_repo"))
        (fun out => print out) Toy.provisioned
      = mkRun (Exited 1)
          (failure_report "git commit -m 'again'" (Some "main_repo")
             (mkCompleted 1 "nothing to commit, working tree clean" ""))
          Toy.provisioned
      /\ exit_status
           (result (bind (run_command Toy.system "git commit -m 'again'" (Some "main_repo"))
                      (fun out => print out) Toy.provisioned)) <> 0%Z).
Proof.
  split.
  - apply (run_command_returns_or_terminates Toy.system "git remote" (Some "main_repo")
             Toy.provisioned (Toy.ok (Toy.listing (Toy.remotes Toy.provisioned)))
             Toy.provisioned); reflexivity.
  - apply (run_command_returns_or_terminates Toy.system "git commit -m 'again'"
             (Some "main_repo") Toy.provisioned
             (mkCompleted 1 "nothing to commit, working tree clean" "")
             Toy.provisioned); [reflexivity | discriminate].
Defined.

Lemma commit_changes_stages_then_commits_witness :
  let r := commit_changes Toy.system "main_repo" "Update from script" Toy.provisioned in
  result r = Exited 1
  /\ exit_status (result r) <> 0%Z
  /\ final r = Toy.provisioned
  /\ trace r
     = [Printed "Committing changes in main_repo...";
        Issued "git add ." (Some "main_repo");
        Issued "git commit -m 'Update from script'" (Some "main_repo");
        Printed "Error executing command: git commit -m 'Update from script'";
        Printed "Error message: "].
Proof.
  apply (commit_changes_stages_then_commits Toy.system "main_repo" "Update from script"
           Toy.provisioned (Toy.ok "") Toy.provisioned
           (mkCompleted 1 "nothing to commit, working tree clean" "") Toy.provisioned);
    [reflexivity | reflexivity | reflexivity | discriminate].
Defined.

Lemma cli_remotes_are_fixed_witness :
  outcome (main Toy.system shipped (Toy.with_action Push default_args) Toy.provisioned)
  = (Returned tt, [("git push subrepo main", Some "main_repo")], Toy.provisioned)
  /\ outcome (main Toy.system shipped (Toy.with_action Pull default_args) Toy.provisioned)
     = (Returned tt, [("git pull origin main", Some "main_repo")], Toy.provisioned).
Proof.
  split.
  - apply (proj1 (cli_remotes_are_fixed Toy.system shipped
                    (Toy.with_action Push default_args) Toy.provisioned)).
    reflexivity.
  - apply (proj2 (cli_remotes_are_fixed Toy.system shipped
                    (Toy.with_action Pull default_args) Toy.provisioned)).
    reflexivity.
Defined.

Lemma configuration_errors_come_first_witness :
  main Toy.system shipped (Toy.with_action Merge default_args) Toy.fresh
  = mkRun (Exited 1)
      [Printed "Error: --source-branch is required for merge operation"] Toy.fresh
  /\ main Toy.system Toy.no_urls default_args Toy.fresh
     = mkRun (Exited 1)
         [Printed ("Error: No sub repository URL provided. Please either set "
                   ++ "the global subGitHubURL or provide --sub-repo")] Toy.fresh.
Proof.
  split.
  - apply (proj1 (configuration_errors_come_first Toy.system shipped
                    (Toy.with_action Merge default_args) Toy.fresh));
      reflexivity.
  - apply (proj2 (configuration_errors_come_first Toy.system Toy.no_urls
                    default_args Toy.fresh));
      reflexivity.
Defined.

Lemma provisioning_is_idempotent_witness :
  let setup := setup_repositories Toy.system shipped (Some "m.git") (Some "s.git")
                 "main_repo" "sub_repo" in
  setup_main Toy.system (Some "m.git") "main_repo" Toy.provisioned
  = mkRun (Returned tt) [Printed "Main repository already exists in main_repo"]
      Toy.provisioned
  /\ setup_sub Toy.system (Some "s.git") "sub_repo" Toy.provisioned
     = mkRun (Returned tt) [Printed "Sub repository already exists in sub_repo"]
         Toy.provisioned
  /\ clone_command (Some "s.git") "sub_repo" = ("git clone s.git sub_repo", None)
  /\ outcome (setup Toy.provisioned) = (Returned tt, [], Toy.provisioned)
  /\ result (setup (final (setup Toy.fresh))) = Returned ("main_repo", "sub_repo")
  /\ commands_of (trace (setup (final (setup Toy.fresh)))) = []
  /\ final (setup (final (setup Toy.fresh))) = final (setup Toy.fresh).
Proof.
  intros setup.
  destruct (provisioning_is_idempotent Toy.system shipped (Some "m.git") (Some "s.git")
              "main_repo" "sub_repo") as (H1 & H2 & H3 & H4 & H5).
  split; [apply H1; reflexivity|].
  split; [apply H2; reflexivity|].
  split.
  { apply (H3 Toy.main_only Toy.main_only
             (Toy.with_paths Toy.main_only ("sub_repo" :: Toy.paths Toy.main_only)));
      try reflexivity.
    vm_compute. auto. }
  split; [apply (H4 Toy.provisioned Toy.provisioned Toy.provisioned); reflexivity|].
  apply (H5 ToyFacts.provisioning_laws_hold Toy.fresh). reflexivity.
Defined.

Lemma missing_url_policy_witness :
  let made := Toy.with_paths Toy.fresh ["sub_repo"; "main_repo"] in
  let setup g mu su :=
    setup_repositories Toy.system g mu su "main_repo" "sub_repo" Toy.fresh in
  setup Toy.no_urls (Some "m.git") None
  = mkRun (Exited 1)
      [MadeDirs "main_repo"; MadeDirs "sub_repo";
       Printed "Cloning main repository from m.git...";
       Issued "git clone m.git main_repo" None;
       Printed "Error: No sub repository URL provided"]
      (Toy.with_paths made ("main_repo/.git" :: Toy.paths made))
  /\ main Toy.system Toy.no_urls default_args Toy.fresh
     = mkRun (Exited 1)
         [Printed ("Error: No sub repository URL provided. Please either set "
                   ++ "the global subGitHubURL or provide --sub-repo")] Toy.fresh
  /\ (exists rest,
        commands_of (trace (setup Toy.no_urls None None))
        = ("git init", Some "main_repo") :: rest)
  /\ (exists rest,
        commands_of (trace (setup shipped None None))
        = ("git clone " ++ mainGitHubURL shipped ++ " main_repo", None) :: rest)
  /\ outcome (setup shipped None None)
     = (Returned tt,
        [("git clone " ++ mainGitHubURL shipped ++ " main_repo", None);
         ("git clone " ++ subGitHubURL shipped ++ " sub_repo", None)],
        Toy.with_paths made ["sub_repo/.git"; "main_repo/.git"; "sub_repo"; "main_repo"]).
Proof.
  intros made setup.
  pose proof (fun g mu su =>
                missing_url_policy Toy.system g mu su "main_repo" "sub_repo"
                  default_args Toy.fresh (Toy.with_paths Toy.fresh ["main_repo"]) made
                  eq_refl eq_refl) as H.
  destruct (H Toy.no_urls (Some "m.git") None) as (A & _).
  destruct (H Toy.no_urls None None) as (_ & B & C & _).
  destruct (H shipped None None) as (_ & _ & _ & D & E).
  split; [exact (proj1 (A eq_refl eq_refl eq_refl eq_refl))|].
  split; [exact (B eq_refl eq_refl eq_refl)|].
  split; [exact (proj2 (C eq_refl eq_refl eq_refl))|].
  split; [exact (proj2 (D eq_refl eq_refl eq_refl))|].
  exact (E eq_refl eq_refl eq_refl eq_refl).
Defined.

(** C4 as it is worded fails on the file as it is: with no URL supplied
    and neither repository in place, the setup falls back to the
    module-level URLs, clones both and returns; nothing is reported,
    nothing exits, nothing is initialized empty. *)
Lemma missing_url_falls_back_to_globals :
  let r := setup_repositories Toy.system shipped None None "main_repo" "sub_repo"
             Toy.fresh in
  PyStr.truthy None = false
  /\ path_exists Toy.system (PyStr.path_join "main_repo" ".git") Toy.fresh = false
  /\ path_exists Toy.system (PyStr.path_join "sub_repo" ".git") Toy.fresh = false
  /\ result r = Returned ("main_repo", "sub_repo")
  /\ exit_status (result r) = 0%Z
  /\ commands_of (trace r)
     = [("git clone " ++ mainGitHubURL shipped ++ " main_repo", None);
        ("git clone " ++ subGitHubURL shipped ++ " sub_repo", None)]
  /\ ~ In ("git init", Some "main_repo") (commands_of (trace r))
  /\ ~ In (Printed "Error: No sub repository URL provided") (trace r).
Proof.
  vm_compute. repeat split; try reflexivity.
  - intros [H|[H|[]]]; discriminate H.
  - intros H. repeat (destruct H as [H|H]; [discriminate H|]). exact H.
Defined.

Lemma linking_is_idempotent_witness :
  let link := add_sub_repo_as_remote Toy.system "main_repo" "sub_repo" "subrepo" in
  outcome (link Toy.provisioned)
  = (Returned tt,
     [("git remote", Some "main_repo");
      ("git remote set-url subrepo /srv/sub_repo", Some "main_repo")],
     Toy.provisioned)
  /\ result (link Toy.main_only) = Returned tt
  /\ result (link (final (link Toy.main_only))) = Returned tt
  /\ Remotes.entries "subrepo" (Toy.remotes (final (link Toy.main_only)))
     = [("subrepo", "/srv/sub_repo")]
  /\ Remotes.entries "subrepo" (Toy.remotes (final (link (final (link Toy.main_only)))))
     = [("subrepo", "/srv/sub_repo")]
  /\ Toy.remotes (final (link (final (link Toy.main_only))))
     = Toy.remotes (final (link Toy.main_only))
  /\ commands_of (trace (link (final (link Toy.main_only))))
     = [("git remote", Some "main_repo");
        ("git remote set-url subrepo /srv/sub_repo", Some "main_repo")].
Proof.
  intros link.
  destruct (linking_is_idempotent Toy.system Toy.remotes Toy.linkable
              "main_repo" "sub_repo" "subrepo") as [D I].
  split.
  - apply (D Toy.provisioned (Toy.ok (Toy.listing (Toy.remotes Toy.provisioned)))
             Toy.provisioned); reflexivity.
  - apply (I ToyFacts.remote_laws_hold Toy.main_only).
    + repeat split. now left.
    + constructor.
Defined.

(** A remote whose name merely contains the name looked for does not
    count as present: the remote is added, not retargeted. *)
Example link_does_not_match_substrings :
  let w := Toy.with_remotes Toy.main_only [("subrepo2", "/old/place")] in
  commands_of (trace (add_sub_repo_as_remote Toy.system "main_repo" "sub_repo" "subrepo" w))
  = [("git remote", Some "main_repo");
     ("git remote add subrepo /srv/sub_repo", Some "main_repo")].
Proof. reflexivity. Qed.

(** * Further properties of the script *)

(** One step of a straight-line script against its command list. *)
Ltac straight :=
  repeat first
    [ rewrite bind_assoc
    | rewrite print_then
    | rewrite bind_ret
    | apply run_then; intros
    | apply ret_then ];
  try reflexivity.

Section Coverage.

Context {World : Type}.
Variable sys : System World.
Variable globals : Globals.

Import PyStr.
Local Open Scope py_scope.

(** *** merge_branches *)

Lemma merge_branches_fail_stop repo_dir source_branch target_branch w :
  outcome (merge_branches sys repo_dir source_branch target_branch w)
  = fail_stop sys (merge_commands repo_dir source_branch target_branch) w.
Proof. unfold merge_branches, merge_commands. straight. Qed.

(** X1.  A merge checks out the target branch and then merges the source
    branch into it, both in the repository directory and fail-stop; when
    the checkout exits with a status other than zero, the merge command
    is never issued and the process exits with status 1. *)
Theorem merge_branches_sequence repo_dir source_branch target_branch w cp w1 :
  let checkout := "git checkout " ++ target_branch in
  let merge := "git merge " ++ fmt source_branch in
  let r := merge_branches sys repo_dir source_branch target_branch w in
  outcome r = fail_stop sys [(checkout, Some repo_dir); (merge, Some repo_dir)] w
  /\ (subprocess_run sys checkout (Some repo_dir) w = (Some cp, w1) ->
      returncode cp <> 0%Z ->
      r = mkRun (Exited 1)
            (Printed ("Merging " ++ fmt source_branch ++ " into " ++ target_branch
                      ++ " in " ++ repo_dir ++ "...")
             :: failure_report checkout (Some repo_dir) cp) w1).
Proof.
  intros checkout merge r. split.
  - apply merge_branches_fail_stop.
  - intros E NZ. unfold r, merge_branches.
    now rewrite bind_print, (bind_run_nonzero _ _ _ _ _ _ _ E NZ).
Qed.

(** *** commit_changes *)

(** X2.  When staging and committing both succeed, [commit_changes]
    returns the trimmed output of [git commit], prints it as its last
    line, and leaves the world the commit command left. *)
Theorem commit_changes_success repo_dir message w cp1 w1 cp2 w2 :
  let commit := "git commit -m '" ++ message ++ "'" in
  subprocess_run sys "git add ." (Some repo_dir) w = (Some cp1, w1) ->
  returncode cp1 = 0%Z ->
  subprocess_run sys commit (Some repo_dir) w1 = (Some cp2, w2) ->
  returncode cp2 = 0%Z ->
  commit_changes sys repo_dir message w
  = mkRun (Returned (strip (stdout cp2)))
      [Printed ("Committing changes in " ++ repo_dir ++ "...");
       Issued "git add ." (Some repo_dir);
       Issued commit (Some repo_dir);
       Printed (strip (stdout cp2))]
      w2.
Proof.
  intros commit E1 Z1 E2 Z2. unfold commit_changes.
  rewrite bind_print, (bind_run_zero _ _ _ _ _ _ _ E1 Z1).
  now rewrite (bind_run_zero _ _ _ _ _ _ _ E2 Z2).
Qed.

(** *** run_command *)

(** X3.  [run_command] handles [CalledProcessError] only: when the child
    cannot be started, the [OSError] unwinds the whole script.  Nothing is
    printed by [run_command], what was to follow does not run, and the
    process ends with status 1. *)
Theorem run_command_does_not_catch_oserror {B} command cwd (k : string -> M World B)
    w w' :
  subprocess_run sys command cwd w = (None, w') ->
  let r := bind (run_command sys command cwd) k w in
  r = mkRun (Raised OSError) [Issued command cwd] w'
  /\ exit_status (result r) = 1%Z.
Proof.
  intros E r. unfold r. rewrite (bind_run_oserror _ _ _ _ _ _ E). auto.
Qed.

(** *** The actions of main *)

Lemma main_commit args w :
  action args = Commit ->
  outcome (main sys globals args w)
  = fail_stop sys (commit_commands (main_dir args) (message args)) w.
Proof.
  intros A. unfold main. rewrite A. unfold commit_changes, commit_commands. straight.
Qed.

Lemma main_merge args w :
  action args = Merge ->
  truthy (source_branch args) = true ->
  outcome (main sys globals args w)
  = fail_stop sys
      (merge_commands (main_dir args) (source_branch args) (branch args)) w.
Proof.
  intros A S. unfold main. rewrite A, S. cbn [negb].
  unfold merge_branches, merge_commands. straight.
Qed.

Lemma main_merge_without_source args w :
  action args = Merge ->
  truthy (source_branch args) = false ->
  main sys globals args w
  = mkRun (Exited 1)
      [Printed "Error: --source-branch is required for merge operation"] w.
Proof. intros A S. unfold main. rewrite A, S. reflexivity. Qed.

Lemma main_sync args w :
  action args = Sync ->
  outcome (main sys globals args w)
  = fail_stop sys
      (sync_commands (main_dir args) (sub_dir args) "subrepo" (branch args)) w.
Proof.
  intros A. unfold main. rewrite A. apply sync_repos_fail_stop.
Qed.

(** X4.  The [commit] action stages and commits in the main directory
    with the message of the command line; the [merge] action with a
    source branch checks out the chosen branch and merges the source
    branch into it, in the main directory; the [sync] action is a sync
    of the main and the sub directory through the remote [subrepo] on
    the chosen branch.  Each is fail-stop. *)
Theorem main_dispatch args w :
  (action args = Commit ->
     outcome (main sys globals args w)
     = fail_stop sys
         [("git add .", Some (main_dir args));
          ("git commit -m '" ++ message args ++ "'", Some (main_dir args))] w)
  /\ (action args = Merge ->
      truthy (source_branch args) = true ->
      outcome (main sys globals args w)
      = fail_stop sys
          [("git checkout " ++ branch args, Some (main_dir args));
           ("git merge " ++ fmt (source_branch args), Some (main_dir args))] w)
  /\ (action args = Sync ->
      outcome (main sys globals args w)
      = fail_stop sys
          [("git push subrepo " ++ branch args, Some (main_dir args));
           ("git checkout " ++ branch args, Some (sub_dir args));
           ("git pull origin main", Some (sub_dir args))] w).
Proof.
  split; [|split].
  - apply main_commit.
  - apply main_merge.
  - apply main_sync.
Qed.

(** X5.  The [commit], [push], [pull] and [merge] actions work in the
    main directory only: every command they issue has the main directory
    as working directory, whatever the sub directory is. *)
Theorem main_stays_in_main_dir args w c :
  action args <> Setup ->
  action args <> Sync ->
  In c (commands_of (trace (main sys globals args w))) ->
  snd c = Some (main_dir args).
Proof.
  intros NS NY.
  assert (P : forall plan,
             Forall (fun c => snd c = Some (main_dir args)) plan ->
             outcome (main sys globals args w) = fail_stop sys plan w ->
             In c (commands_of (trace (main sys globals args w))) ->
             snd c = Some (main_dir args)).
  { intros plan F O I. rewrite commands_of_outcome, O in I.
    destruct (fail_stop_prefix sys plan w) as [rest E].
    rewrite Forall_forall in F. apply F. rewrite E. apply in_or_app. now left. }
  destruct (action args) eqn:A; try congruence.
  - apply (P (commit_commands (main_dir args) (message args))
             ltac:(unfold commit_commands; repeat constructor) (main_commit args w A)).
  - apply (P [("git push subrepo " ++ branch args, Some (main_dir args))]
             ltac:(repeat constructor) (main_push sys globals args w A)).
  - apply (P [("git pull origin " ++ branch args, Some (main_dir args))]
             ltac:(repeat constructor) (main_pull sys globals args w A)).
  - destruct (truthy (source_branch args)) eqn:S.
    + apply (P (merge_commands (main_dir args) (source_branch args) (branch args))
               ltac:(unfold merge_commands; repeat constructor)
               (main_merge args w A S)).
    + rewrite (main_merge_without_source args w A S). intros [].
Qed.

(** *** setup_repositories *)

(** X6.  When a directory cannot be made, the setup stops on the
    [OSError] at once: no command is issued, and when it is the main
    directory that fails, the sub directory is not even tried. *)
Theorem setup_repositories_makedirs_failure mu su md sd w :
  let r := setup_repositories sys globals mu su md sd w in
  (makedirs sys md w = None ->
     r = mkRun (Raised OSError) [MadeDirs md] w)
  /\ (forall w1,
        makedirs sys md w = Some w1 ->
        makedirs sys sd w1 = None ->
        r = mkRun (Raised OSError) [MadeDirs md; MadeDirs sd] w1).
Proof.
  intros r. unfold r, setup_repositories. split.
  - intros E. apply bind_raised. unfold os_makedirs. now rewrite E.
  - intros w1 E1 E2.
    assert (R1 : os_makedirs sys md w = mkRun (Returned tt) [MadeDirs md] w1)
      by (unfold os_makedirs; now rewrite E1).
    rewrite (bind_returned _ _ _ _ _ _ R1).
    assert (R2 : os_makedirs sys sd w1 = mkRun (Raised OSError) [MadeDirs sd] w1)
      by (unfold os_makedirs; now rewrite E2).
    now rewrite (bind_raised _ _ _ _ _ _ R2).
Qed.

(** The command that provisions main when its metadata is missing. *)
Lemma setup_main_then {B} url d (k : unit -> M World B) w :
  path_exists sys (path_join d ".git") w = false ->
  outcome (bind (setup_main sys url d) k w)
  = let '(c, cwd) := if truthy url then clone_command url d else init_command d in
    match subprocess_run sys c cwd w with
    | (Some cp, w') =>
        if (returncode cp =? 0)%Z then
          let '(r, cs, w'') := outcome (k tt w') in (r, (c, cwd) :: cs, w'')
        else (Exited 1, [(c, cwd)], w')
    | (None, w') => (Raised OSError, [(c, cwd)], w')
    end.
Proof.
  intros P. rewrite outcome_bind_unit, (setup_main_absent _ _ _ _ P).
  destruct (if truthy url then clone_command url d else init_command d) as [c cwd].
  cbn [fail_stop].
  destruct (subprocess_run sys c cwd w) as [[cp|] w']; auto.
  destruct (returncode cp =? 0)%Z; auto.
Qed.

(** X7.  Main is provisioned before sub is looked at: when the clone or
    initialization of main exits with a status other than zero, the
    setup exits with status 1 having issued that one command, and sub is
    neither checked nor cloned. *)
Theorem setup_main_failure_stops mu su md sd w w1 w2 cp w3 :
  let um := effective_url mu (mainGitHubURL globals) in
  let cm := if truthy um then clone_command um md else init_command md in
  makedirs sys md w = Some w1 ->
  makedirs sys sd w1 = Some w2 ->
  path_exists sys (path_join md ".git") w2 = false ->
  subprocess_run sys (fst cm) (snd cm) w2 = (Some cp, w3) ->
  returncode cp <> 0%Z ->
  outcome (setup_repositories sys globals mu su md sd w) = (Exited 1, [cm], w3).
Proof.
  intros um cm M1 M2 P1 E NZ.
  rewrite (setup_repositories_parts _ _ _ _ _ _ _ _ _ M1 M2).
  rewrite (setup_main_then _ _ _ _ P1). fold um cm.
  destruct cm as [c cwd]. cbn [fst snd] in E. rewrite E.
  apply Z.eqb_neq in NZ. now rewrite NZ.
Qed.

(** X8.  Once main has been cloned or initialized, sub is looked at in
    the world that command left.  With its metadata missing there, a sub
    URL at hand is cloned, fail-stop; without one the setup exits with
    status 1 only now, after main has been provisioned. *)
Theorem setup_sub_follows_main mu su md sd w w1 w2 cp w3 :
  let um := effective_url mu (mainGitHubURL globals) in
  let us := effective_url su (subGitHubURL globals) in
  let cm := if truthy um then clone_command um md else init_command md in
  makedirs sys md w = Some w1 ->
  makedirs sys sd w1 = Some w2 ->
  path_exists sys (path_join md ".git") w2 = false ->
  subprocess_run sys (fst cm) (snd cm) w2 = (Some cp, w3) ->
  returncode cp = 0%Z ->
  path_exists sys (path_join sd ".git") w3 = false ->
  outcome (setup_repositories sys globals mu su md sd w)
  = if truthy us then
      let '(r, cs, w4) := fail_stop sys [clone_command us sd] w3 in (r, cm :: cs, w4)
    else (Exited 1, [cm], w3).
Proof.
  intros um us cm M1 M2 P1 E Z0 P2.
  rewrite (setup_repositories_parts _ _ _ _ _ _ _ _ _ M1 M2).
  rewrite (setup_main_then _ _ _ _ P1). fold um us cm.
  destruct cm as [c cwd]. cbn [fst snd] in E. rewrite E.
  apply Z.eqb_eq in Z0. rewrite Z0.
  rewrite outcome_bind_unit.
  destruct (truthy us) eqn:T.
  - rewrite (setup_sub_absent_url _ _ _ _ P2 T).
    destruct (fail_stop sys [clone_command us sd] w3) as [[r cs] w4].
    destruct r as [[]|x|e]; try reflexivity.
    unfold outcome, ret. cbv beta iota. cbn [result trace final void commands_of].
    now rewrite app_nil_r.
  - now rewrite (setup_sub_absent_no_url _ _ _ _ P2 T).
Qed.

(** *** add_sub_repo_as_remote *)

(** X9.  Linking always starts with [git remote] in the main directory
    and issues at most one more command, the retargeting or the addition
    of the remote, never both. *)
Theorem link_issues_at_most_two main_repo_dir sub_repo_dir remote_name w :
  let target := abspath sys sub_repo_dir in
  let set_cmd :=
    ("git remote set-url " ++ remote_name ++ " " ++ target, Some main_repo_dir) in
  let add_cmd :=
    ("git remote add " ++ remote_name ++ " " ++ target, Some main_repo_dir) in
  exists rest,
    commands_of
      (trace (add_sub_repo_as_remote sys main_repo_dir sub_repo_dir remote_name w))
    = ("git remote", Some main_repo_dir) :: rest
    /\ (rest = [] \/ rest = [set_cmd] \/ rest = [add_cmd]).
Proof.
  intros target set_cmd add_cmd.
  destruct (subprocess_run sys "git remote" (Some main_repo_dir) w) as [[cp|] w1] eqn:E.
  - destruct (Z.eq_dec (returncode cp) 0) as [Z0|NZ].
    + rewrite commands_of_outcome,
        (add_sub_repo_as_remote_outcome _ _ _ _ _ _ _ E Z0).
      fold target set_cmd add_cmd.
      assert (S : forall c d, snd (fst (fail_stop sys [(c, d)] w1)) = [(c, d)]).
      { intros c d. cbn [fail_stop].
        destruct (subprocess_run sys c d w1) as [[cp'|] w2]; auto.
        destruct (returncode cp' =? 0)%Z; auto. }
      subst set_cmd add_cmd.
      destruct (mem remote_name (split (strip (stdout cp))));
        match goal with
        | |- context [fail_stop sys [(?c, ?d)] w1] =>
            specialize (S c d);
            destruct (fail_stop sys [(c, d)] w1) as [[r cs] w2];
            cbn [fst snd] in *; exists cs; rewrite S; auto
        end.
    + unfold add_sub_repo_as_remote.
      rewrite (bind_run_nonzero _ _ _ _ _ _ _ E NZ). exists []. auto.
  - unfold add_sub_repo_as_remote.
    rewrite (bind_run_oserror _ _ _ _ _ _ E). exists []. auto.
Qed.

(** X10.  When [git remote] itself exits with a status other than zero,
    linking reports it and exits with status 1: the remote is neither
    added nor retargeted. *)
Theorem link_stops_when_listing_fails main_repo_dir sub_repo_dir remote_name w cp w1 :
  subprocess_run sys "git remote" (Some main_repo_dir) w = (Some cp, w1) ->
  returncode cp <> 0%Z ->
  add_sub_repo_as_remote sys main_repo_dir sub_repo_dir remote_name w
  = mkRun (Exited 1) (failure_report "git remote" (Some main_repo_dir) cp) w1.
Proof.
  intros E NZ. unfold add_sub_repo_as_remote.
  apply (bind_run_nonzero _ _ _ _ _ _ _ E NZ).
Qed.

(** *** What a computation may emit, and how it may exit *)

Lemma eo_bind {A B} P (m : M World A) (k : A -> M World B) :
  emits_only P m -> (forall a, emits_only P (k a)) -> emits_only P (bind m k).
Proof.
  intros Hm Hk w e. unfold bind.
  destruct (m w) as [[a|x|x] t w1] eqn:E; simpl.
  - rewrite in_app_iff. intros [I|I].
    + apply (Hm w). now rewrite E.
    + now apply (Hk a w1).
  - intros I; apply (Hm w); now rewrite E.
  - intros I; apply (Hm w); now rewrite E.
Qed.

Lemma eo_print (P : Event -> Prop) line :
  P (Printed line) -> emits_only P (@print World line).
Proof. intros H w e [<-|[]]. exact H. Qed.

Lemma eo_ret {A} P (a : A) : emits_only P (@ret World A a).
Proof. intros w e []. Qed.

Lemma eo_exit {A} P code : emits_only P (@sys_exit World A code).
Proof. intros w e []. Qed.

Lemma eo_makedirs (P : Event -> Prop) d :
  P (MadeDirs d) -> emits_only P (os_makedirs sys d).
Proof.
  intros H w e. unfold os_makedirs.
  destruct (makedirs sys d w); intros [<-|[]]; exact H.
Qed.

Lemma eo_exists P p : emits_only P (os_path_exists sys p).
Proof. intros w e []. Qed.

Lemma eo_run (P : Event -> Prop) command cwd :
  P (Issued command cwd) ->
  P (Printed ("Error executing command: " ++ command)) ->
  (forall err, P (Printed ("Error message: " ++ err))) ->
  emits_only P (run_command sys command cwd).
Proof.
  intros H1 H2 H3 w e.
  destruct (subprocess_run sys command cwd w) as [[cp|] w'] eqn:E.
  - destruct (Z.eq_dec (returncode cp) 0) as [Z0|NZ].
    + rewrite (run_command_zero _ _ _ _ _ _ E Z0). intros [<-|[]]; auto.
    + rewrite (run_command_nonzero _ _ _ _ _ _ E NZ).
      intros [<-|[<-|[<-|[]]]]; auto.
  - rewrite (run_command_oserror _ _ _ _ _ E). intros [<-|[]]; auto.
Qed.

Lemma ex_bind {A B} n (m : M World A) (k : A -> M World B) :
  exits_only_with n m -> (forall a, exits_only_with n (k a)) ->
  exits_only_with n (bind m k).
Proof.
  intros Hm Hk w c. unfold bind.
  destruct (m w) as [[a|x|x] t w1] eqn:E; simpl.
  - apply (Hk a w1).
  - intros R. inversion R; subst. apply (Hm w). now rewrite E.
  - discriminate.
Qed.

Lemma ex_print n line : exits_only_with n (@print World line).
Proof. intros w c; discriminate. Qed.

Lemma ex_ret {A} n (a : A) : exits_only_with n (@ret World A a).
Proof. intros w c; discriminate. Qed.

Lemma ex_exit {A} n : exits_only_with n (@sys_exit World A n).
Proof. intros w c E; inversion E; auto. Qed.

Lemma ex_makedirs n d : exits_only_with n (os_makedirs sys d).
Proof.
  intros w c. unfold os_makedirs. destruct (makedirs sys d w); discriminate.
Qed.

Lemma ex_exists n p : exits_only_with n (os_path_exists sys p).
Proof. intros w c; discriminate. Qed.

Lemma ex_run command cwd : exits_only_with 1 (run_command sys command cwd).
Proof.
  intros w c.
  destruct (subprocess_run sys command cwd w) as [[cp|] w'] eqn:E.
  - destruct (Z.eq_dec (returncode cp) 0) as [Z0|NZ].
    + rewrite (run_command_zero _ _ _ _ _ _ E Z0). discriminate.
    + rewrite (run_command_nonzero _ _ _ _ _ _ E NZ). intros R; inversion R; auto.
  - rewrite (run_command_oserror _ _ _ _ _ E). discriminate.
Qed.

(** The functions of the script, opened up to their steps. *)
Ltac open_script :=
  unfold main, sync_repos, commit_changes, push_to_repo, pull_from_repo,
    merge_branches, add_sub_repo_as_remote, setup_repositories, setup_main,
    setup_sub.

Ltac branches :=
  match goal with
  | |- _ (if ?b then _ else _) => destruct b
  end.

Ltac exits :=
  repeat first
    [ apply ex_run | apply ex_print | apply ex_ret | apply ex_exit
    | apply ex_makedirs | apply ex_exists
    | apply ex_bind; [| intros ?]
    | branches ].

Ltac events :=
  repeat first
    [ apply eo_ret | apply eo_exit | apply eo_exists
    | apply eo_run; [| | intros ?] | apply eo_print | apply eo_makedirs
    | apply eo_bind; [| intros ?]
    | branches ].

(** X12.  Only the setup makes directories: the other actions never call
    [os.makedirs], so a missing main or sub directory is not created by
    [commit], [push], [pull], [merge] or [sync]. *)
Theorem only_setup_makes_directories args w d :
  action args <> Setup ->
  ~ In (MadeDirs d) (trace (main sys globals args w)).
Proof.
  intros NS I.
  assert (E : emits_only (fun e => e <> MadeDirs d) (main sys globals args)).
  { open_script. destruct (action args); try congruence; events; discriminate. }
  exact (E w _ I eq_refl).
Qed.

(** *** The setup action *)

Lemma cli_url_given given global :
  truthy given = true -> cli_url given global = given.
Proof. intros T. unfold cli_url. now rewrite T. Qed.

Lemma cli_url_no_fallback given global :
  negb (truthy (cli_url given global)) && nonempty global = false.
Proof.
  unfold cli_url. destruct (truthy given) eqn:T.
  - now rewrite T.
  - simpl. now destruct (nonempty global).
Qed.

Lemma cli_url_effective given global :
  effective_url (cli_url given global) global = cli_url given global.
Proof. unfold effective_url. now rewrite cli_url_no_fallback. Qed.

(** The setup action once a sub URL is at hand. *)
Lemma main_setup_steps args w :
  action args = Setup ->
  truthy (cli_url (sub_repo args) (subGitHubURL globals)) = true ->
  main sys globals args w
  = bind (setup_repositories sys globals
            (cli_url (main_repo args) (mainGitHubURL globals))
            (cli_url (sub_repo args) (subGitHubURL globals))
            (main_dir args) (sub_dir args))
      (fun dirs =>
         bind (add_sub_repo_as_remote sys (fst dirs) (snd dirs) "subrepo")
           (fun _ => print completion_line)) w.
Proof.
  intros A S. unfold main. rewrite A. fold (cli_url (sub_repo args) (subGitHubURL globals)).
  fold (cli_url (main_repo args) (mainGitHubURL globals)).
  rewrite S. cbn [negb]. now rewrite bind_ret.
Qed.

Lemma commands_bind_prefix {A B} (m : M World A) (k : A -> M World B) w :
  exists rest,
    commands_of (trace (bind m k w)) = (commands_of (trace (m w)) ++ rest)%list.
Proof.
  unfold bind. destruct (m w) as [[a|c|e] t w1]; simpl.
  - rewrite commands_of_app. eauto.
  - exists []. now rewrite app_nil_r.
  - exists []. now rewrite app_nil_r.
Qed.

(** X13.  A URL given on the command line takes precedence over the
    module-level one: a setup with [--main-repo] given and the main
    metadata missing starts by cloning that URL into the main directory,
    whatever [mainGitHubURL] is. *)
Theorem cli_url_takes_precedence args w w1 w2 :
  action args = Setup ->
  truthy (main_repo args) = true ->
  truthy (cli_url (sub_repo args) (subGitHubURL globals)) = true ->
  makedirs sys (main_dir args) w = Some w1 ->
  makedirs sys (sub_dir args) w1 = Some w2 ->
  path_exists sys (path_join (main_dir args) ".git") w2 = false ->
  exists rest,
    commands_of (trace (main sys globals args w))
    = ("git clone " ++ fmt (main_repo args) ++ " " ++ main_dir args, None) :: rest.
Proof.
  intros A T S M1 M2 P1. rewrite (main_setup_steps args w A S).
  match goal with
  | |- context [bind ?m ?k w] => destruct (commands_bind_prefix m k w) as [r1 E1]
  end.
  rewrite E1.
  destruct (setup_main_first_command sys globals
              (cli_url (main_repo args) (mainGitHubURL globals))
              (cli_url (sub_repo args) (subGitHubURL globals))
              (main_dir args) (sub_dir args) w w1 w2 M1 M2 P1) as [r2 E2].
  rewrite E2, cli_url_effective, (cli_url_given _ _ T), T.
  unfold clone_command. simpl app. eauto.
Qed.

(** X14.  A setup that fails while provisioning never links: when
    [setup_repositories] does not return, [main] ends as it did, with
    the same events and the same world, and no [git remote] command has
    been issued. *)
Theorem failed_provisioning_never_links args w :
  let setup :=
    setup_repositories sys globals
      (cli_url (main_repo args) (mainGitHubURL globals))
      (cli_url (sub_repo args) (subGitHubURL globals))
      (main_dir args) (sub_dir args) w in
  let r := main sys globals args w in
  action args = Setup ->
  truthy (cli_url (sub_repo args) (subGitHubURL globals)) = true ->
  (forall dirs, result setup <> Returned dirs) ->
  void (result r) = void (result setup)
  /\ trace r = trace setup
  /\ final r = final setup
  /\ forall cwd, ~ In ("git remote", cwd) (commands_of (trace r)).
Proof.
  intros setup r A S N.
  assert (E : r = mkRun (match result setup with
                         | Returned _ => Returned tt
                         | Exited c => Exited c
                         | Raised e => Raised e
                         end) (trace setup) (final setup)).
  { unfold r. rewrite (main_setup_steps args w A S). fold setup.
    unfold bind. fold setup.
    destruct (result setup) as [dirs|c|e]; auto. now destruct (N dirs). }
  rewrite E. cbn [result trace final]. repeat split.
  - destruct (result setup) as [dirs|c|e]; auto.
  - intros cwd I.
    destruct (setup_repositories_issues sys globals _ _ _ _ w _ I)
      as [[H _]|[[H _]|[H _]]]; discriminate H.
Qed.

Lemma main_setup_without_url args w :
  action args = Setup ->
  truthy (cli_url (sub_repo args) (subGitHubURL globals)) = false ->
  main sys globals args w
  = mkRun (Exited 1)
      [Printed ("Error: No sub repository URL provided. Please either set "
                ++ "the global subGitHubURL or provide --sub-repo")] w.
Proof.
  intros A S. unfold main. rewrite A.
  fold (cli_url (sub_repo args) (subGitHubURL globals)). now rewrite S.
Qed.

Lemma cc_bind {A B} (m : M World A) (k : A -> M World B) w :
  emits_only (fun e => e <> Printed completion_line) m ->
  (forall a w', completes_cleanly (k a w')) ->
  completes_cleanly (bind m k w).
Proof.
  intros Hm Hk. unfold bind.
  assert (N : ~ In (Printed completion_line) (trace (m w)))
    by (intros I; exact (Hm w _ I eq_refl)).
  destruct (m w) as [[a|c|e] t w1]; unfold completes_cleanly;
    cbn [result trace final] in *.
  - destruct (Hk a w1) as [K1 K2]. split.
    + intros b R. destruct (K1 b R) as [t' [E N']].
      exists (t ++ t')%list. rewrite E, app_assoc. split; auto.
      rewrite in_app_iff. tauto.
    + intros R. rewrite in_app_iff. specialize (K2 R). tauto.
  - split; [discriminate | auto].
  - split; [discriminate | auto].
Qed.

(** X15.  The line [Repositories setup complete!] tells the truth: a
    setup prints it exactly when it returns, as its very last line, after
    provisioning and linking both succeeded; a setup that exits or dies
    never prints it. *)
Theorem completion_line_means_success args w :
  action args = Setup ->
  let r := main sys globals args w in
  (forall a, result r = Returned a ->
     exists t, trace r = (t ++ [Printed "Repositories setup complete!"])%list
               /\ ~ In (Printed "Repositories setup complete!") t)
  /\ ((forall a, result r <> Returned a) ->
      ~ In (Printed "Repositories setup complete!") (trace r)).
Proof.
  intros A r. change (completes_cleanly r). unfold r.
  destruct (truthy (cli_url (sub_repo args) (subGitHubURL globals))) eqn:S.
  - rewrite (main_setup_steps args w A S).
    apply cc_bind.
    + open_script. events; unfold completion_line; discriminate.
    + intros dirs w1. apply cc_bind.
      * open_script. events; unfold completion_line; discriminate.
      * intros [] w2. split.
        -- intros a _. exists []. auto.
        -- intros N. now destruct (N tt).
  - rewrite (main_setup_without_url args w A S). split.
    + discriminate.
    + intros _ [H|[]]. discriminate H.
Qed.

(** X16.  The notices [Using main repository URL from global variable]
    and [Using sub repository URL from global variable] are never
    printed by a setup started from [main]: [main] has already put the
    module-level URL in place of a missing one, so the fall-back inside
    [setup_repositories] finds nothing to do. *)
Theorem setup_from_main_never_announces_fallback args w url :
  action args = Setup ->
  ~ In (Printed ("Using main repository URL from global variable: " ++ url))
       (trace (main sys globals args w))
  /\ ~ In (Printed ("Using sub repository URL from global variable: " ++ url))
         (trace (main sys globals args w)).
Proof.
  intros A.
  assert (E : emits_only
                (fun e =>
                   e <> Printed ("Using main repository URL from global variable: "
                                 ++ url)
                   /\ e <> Printed ("Using sub repository URL from global variable: "
                                    ++ url))
                (main sys globals args)).
  { intros w0.
    destruct (truthy (cli_url (sub_repo args) (subGitHubURL globals))) eqn:S.
    - rewrite (main_setup_steps args w0 A S). revert w0.
      change (emits_only
                (fun e =>
                   e <> Printed ("Using main repository URL from global variable: "
                                 ++ url)
                   /\ e <> Printed ("Using sub repository URL from global variable: "
                                    ++ url))
                (bind (setup_repositories sys globals
                         (cli_url (main_repo args) (mainGitHubURL globals))
                         (cli_url (sub_repo args) (subGitHubURL globals))
                         (main_dir args) (sub_dir args))
                   (fun dirs =>
                      bind (add_sub_repo_as_remote sys (fst dirs) (snd dirs) "subrepo")
                        (fun _ => print completion_line)))).
      open_script. rewrite !cli_url_no_fallback. cbv beta iota.
      events; unfold completion_line; split; discriminate.
    - rewrite (main_setup_without_url args w0 A S).
      intros e [<-|[]]. split; discriminate. }
  split; intros I; destruct (E w _ I) as [N1 N2]; [now apply N1 | now apply N2].
Qed.

(** X17.  An empty string given for [--main-repo], [--sub-repo] or
    [--source-branch] is the same as not giving the option at all: the
    run is the same, event for event. *)
Theorem empty_option_is_no_option args w :
  main sys globals args w = main sys globals (without_empty args) w.
Proof.
  destruct args as [mr sr a msg br sb md sd].
  unfold main, without_empty, absent_if_empty.
  cbn [main_repo sub_repo action message branch source_branch main_dir sub_dir].
  destruct mr as [[|c1 s1]|]; destruct sr as [[|c2 s2]|]; destruct sb as [[|c3 s3]|];
    reflexivity.
Qed.

End Coverage.

(** The further properties, applied to runs of the concrete system. *)

Lemma merge_branches_sequence_witness :
  let w := Toy.failing_on ["git checkout main"] Toy.provisioned in
  merge_branches Toy.system "main_repo" (Some "feature") "main" w
  = mkRun (Exited 1)
      [Printed "Merging feature into main in main_repo...";
       Issued "git checkout main" (Some "main_repo");
       Printed "Error executing command: git checkout main";
       Printed "Error message: fatal: simulated failure"] w.
Proof.
  intros w.
  apply (merge_branches_sequence Toy.system "main_repo" (Some "feature") "main" w
           (Toy.ko 1 "fatal: simulated failure") w);
    [reflexivity | discriminate].
Defined.

Lemma commit_changes_success_witness :
  commit_changes Toy.system "main_repo" "Update from script" Toy.pending
  = mkRun (Returned "1 file changed")
      [Printed "Committing changes in main_repo...";
       Issued "git add ." (Some "main_repo");
       Issued "git commit -m 'Update from script'" (Some "main_repo");
       Printed "1 file changed"]
      (Toy.with_dirty Toy.pending false).
Proof.
  apply (commit_changes_success Toy.system "main_repo" "Update from script"
           Toy.pending (Toy.ok "") Toy.pending (Toy.ok "1 file changed")
           (Toy.with_dirty Toy.pending false)); reflexivity.
Defined.

Lemma run_command_does_not_catch_oserror_witness :
  let r := bind (run_command Toy.system "git add ." (Some "main_repo"))
             (fun out => print out) Toy.fresh in
  r = mkRun (Raised OSError) [Issued "git add ." (Some "main_repo")] Toy.fresh
  /\ exit_status (result r) = 1%Z.
Proof.
  apply (run_command_does_not_catch_oserror Toy.system "git add ." (Some "main_repo")
           (fun out => print out) Toy.fresh Toy.fresh).
  reflexivity.
Defined.

Lemma main_dispatch_witness :
  outcome (main Toy.system shipped (Toy.with_action Commit default_args) Toy.pending)
  = (Returned tt,
     [("git add .", Some "main_repo");
      ("git commit -m 'Update from script'", Some "main_repo")],
     Toy.with_dirty Toy.pending false)
  /\ outcome (main Toy.system shipped
                (mkArgs None None Merge "" "main" (Some "feature") "main_repo" "sub_repo")
                Toy.provisioned)
     = (Returned tt,
        [("git checkout main", Some "main_repo"); ("git merge feature", Some "main_repo")],
        Toy.provisioned)
  /\ outcome (main Toy.system shipped (Toy.with_action Sync default_args) Toy.provisioned)
     = (Returned tt,
        [("git push subrepo main", Some "main_repo");
         ("git checkout main", Some "sub_repo");
         ("git pull origin main", Some "sub_repo")],
        Toy.provisioned).
Proof.
  split; [|split].
  - destruct (main_dispatch Toy.system shipped (Toy.with_action Commit default_args)
                Toy.pending) as (H & _ & _).
    rewrite (H eq_refl). reflexivity.
  - destruct (main_dispatch Toy.system shipped
                (mkArgs None None Merge "" "main" (Some "feature") "main_repo" "sub_repo")
                Toy.provisioned) as (_ & H & _).
    rewrite (H eq_refl eq_refl). reflexivity.
  - destruct (main_dispatch Toy.system shipped (Toy.with_action Sync default_args)
                Toy.provisioned) as (_ & _ & H).
    rewrite (H eq_refl). reflexivity.
Defined.

Lemma main_stays_in_main_dir_witness :
  snd ("git push subrepo main", Some "main_repo") = Some "main_repo".
Proof.
  apply (main_stays_in_main_dir Toy.system shipped (Toy.with_action Push default_args)
           Toy.provisioned ("git push subrepo main", Some "main_repo")).
  - discriminate.
  - discriminate.
  - vm_compute. auto.
Defined.

Lemma setup_repositories_makedirs_failure_witness :
  setup_repositories Toy.system shipped None None "" "sub_repo" Toy.fresh
  = mkRun (Raised OSError) [MadeDirs ""] Toy.fresh
  /\ setup_repositories Toy.system shipped None None "main_repo" "" Toy.fresh
     = mkRun (Raised OSError) [MadeDirs "main_repo"; MadeDirs ""]
         (Toy.with_paths Toy.fresh ["main_repo"]).
Proof.
  split.
  - apply (proj1 (setup_repositories_makedirs_failure Toy.system shipped None None
                    "" "sub_repo" Toy.fresh)).
    reflexivity.
  - apply (proj2 (setup_repositories_makedirs_failure Toy.system shipped None None
                    "main_repo" "" Toy.fresh));
      reflexivity.
Defined.

Lemma setup_main_failure_stops_witness :
  let w := Toy.failing_on ["git clone m.git main_repo"] Toy.fresh in
  outcome (setup_repositories Toy.system shipped (Some "m.git") (Some "s.git")
             "main_repo" "sub_repo" w)
  = (Exited 1, [("git clone m.git main_repo", None)],
     Toy.with_paths w ["sub_repo"; "main_repo"]).
Proof.
  intros w.
  apply (setup_main_failure_stops Toy.system shipped (Some "m.git") (Some "s.git")
           "main_repo" "sub_repo" w
           (Toy.with_paths w ["main_repo"])
           (Toy.with_paths w ["sub_repo"; "main_repo"])
           (Toy.ko 1 "fatal: simulated failure")
           (Toy.with_paths w ["sub_repo"; "main_repo"]));
    [reflexivity | reflexivity | reflexivity | reflexivity | discriminate].
Defined.

Lemma setup_sub_follows_main_witness :
  outcome (setup_repositories Toy.system Toy.no_urls (Some "m.git") None
             "main_repo" "sub_repo" Toy.fresh)
  = (Exited 1, [("git clone m.git main_repo", None)],
     Toy.with_paths Toy.fresh ["main_repo/.git"; "sub_repo"; "main_repo"]).
Proof.
  apply (setup_sub_follows_main Toy.system Toy.no_urls (Some "m.git") None
           "main_repo" "sub_repo" Toy.fresh
           (Toy.with_paths Toy.fresh ["main_repo"])
           (Toy.with_paths Toy.fresh ["sub_repo"; "main_repo"])
           (Toy.ok "")
           (Toy.with_paths Toy.fresh ["main_repo/.git"; "sub_repo"; "main_repo"]));
    reflexivity.
Defined.

Lemma link_stops_when_listing_fails_witness :
  let w := Toy.failing_on ["git remote"] Toy.provisioned in
  add_sub_repo_as_remote Toy.system "main_repo" "sub_repo" "subrepo" w
  = mkRun (Exited 1)
      [Issued "git remote" (Some "main_repo");
       Printed "Error executing command: git remote";
       Printed "Error message: fatal: simulated failure"] w.
Proof.
  intros w.
  apply (link_stops_when_listing_fails Toy.system "main_repo" "sub_repo" "subrepo" w
           (Toy.ko 1 "fatal: simulated failure") w);
    [reflexivity | discriminate].
Defined.

Lemma only_setup_makes_directories_witness :
  ~ In (MadeDirs "main_repo")
       (trace (main Toy.system shipped (Toy.with_action Commit default_args) Toy.fresh)).
Proof.
  apply (only_setup_makes_directories Toy.system shipped
           (Toy.with_action Commit default_args) Toy.fresh "main_repo").
  discriminate.
Defined.

Lemma cli_url_takes_precedence_witness :
  exists rest,
    commands_of (trace (main Toy.system shipped Toy.cli_setup Toy.fresh))
    = ("git clone m.git main_repo", None) :: rest.
Proof.
  apply (cli_url_takes_precedence Toy.system shipped Toy.cli_setup Toy.fresh
           (Toy.with_paths Toy.fresh ["main_repo"])
           (Toy.with_paths Toy.fresh ["sub_repo"; "main_repo"]));
    reflexivity.
Defined.

Lemma failed_provisioning_never_links_witness :
  let w := Toy.failing_on ["git clone s.git sub_repo"] Toy.fresh in
  result (main Toy.system shipped Toy.cli_setup w) = Exited 1
  /\ ~ In ("git remote", Some "main_repo")
         (commands_of (trace (main Toy.system shipped Toy.cli_setup w))).
Proof.
  intros w.
  destruct (failed_provisioning_never_links Toy.system shipped Toy.cli_setup w
              eq_refl eq_refl) as (_ & _ & _ & N).
  - intros dirs. vm_compute. discriminate.
  - split; [reflexivity | apply N].
Defined.

Lemma completion_line_means_success_witness :
  exists t,
    trace (main Toy.system shipped default_args Toy.fresh)
    = (t ++ [Printed "Repositories setup complete!"])%list
    /\ ~ In (Printed "Repositories setup complete!") t.
Proof.
  apply (proj1 (completion_line_means_success Toy.system shipped default_args Toy.fresh
                  eq_refl) tt).
  reflexivity.
Defined.

Lemma setup_from_main_never_announces_fallback_witness :
  ~ In (Printed ("Using main repository URL from global variable: "
                 ++ mainGitHubURL shipped))
       (trace (main Toy.system shipped default_args Toy.fresh))
  /\ ~ In (Printed ("Using sub repository URL from global variable: "
                    ++ mainGitHubURL shipped))
         (trace (main Toy.system shipped default_args Toy.fresh)).
Proof.
  apply (setup_from_main_never_announces_fallback Toy.system shipped default_args
           Toy.fresh (mainGitHubURL shipped)).
  reflexivity.
Defined.

(** * The setup action and the module-level URLs *)

Section Setup_urls.

Context {World : Type}.
Variable sys : System World.

Import PyStr.
Local Open Scope py_scope.

Lemma cli_url_truthy given global :
  nonempty global = true -> truthy (cli_url given global) = true.
Proof.
  intros G. unfold cli_url. destruct (truthy given) eqn:T; auto.
Qed.

(** The first command of a setup started from [main], with the main
    metadata missing. *)
Lemma main_setup_first_command globals args w w1 w2 :
  action args = Setup ->
  truthy (cli_url (sub_repo args) (subGitHubURL globals)) = true ->
  makedirs sys (main_dir args) w = Some w1 ->
  makedirs sys (sub_dir args) w1 = Some w2 ->
  path_exists sys (path_join (main_dir args) ".git") w2 = false ->
  let url := cli_url (main_repo args) (mainGitHubURL globals) in
  exists rest,
    commands_of (trace (main sys globals args w))
    = (if truthy url then clone_command url (main_dir args)
       else init_command (main_dir args)) :: rest.
Proof.
  intros A S M1 M2 P1 url. rewrite (main_setup_steps sys globals args w A S).
  match goal with
  | |- context [bind ?m ?k w] => destruct (commands_bind_prefix m k w) as [r1 E1]
  end.
  rewrite E1.
  destruct (setup_main_first_command sys globals
              (cli_url (main_repo args) (mainGitHubURL globals))
              (cli_url (sub_repo args) (subGitHubURL globals))
              (main_dir args) (sub_dir args) w w1 w2 M1 M2 P1) as [r2 E2].
  rewrite E2, cli_url_effective. fold url. simpl app. eauto.
Qed.

(** C9.  [git init] is issued by a setup only when the module-level main
    URL is empty and none is supplied, from [setup_repositories] as from
    [main].  With a non-empty module-level main URL, a main directory
    without metadata is cloned: the first command of
    [setup_repositories] is the clone of the effective URL, supplied or
    global, into the main directory.  [main] puts the module-level URLs
    in place of missing ones before it calls [setup_repositories], and
    then its first command is that same clone.  With the URLs of the
    file, both non-empty, every setup started from [main] that finds no
    main metadata starts with the clone of the given or the module-level
    URL, and no setup started from [main] ever issues [git init]. *)
Theorem main_is_cloned_not_initialized globals mu su md sd args w :
  let main_url :=
    if truthy (main_repo args) then main_repo args
    else Some (mainGitHubURL globals) in
  let sub_url :=
    if truthy (sub_repo args) then sub_repo args
    else Some (subGitHubURL globals) in
  (forall cwd,
      In ("git init", cwd)
         (commands_of (trace (setup_repositories sys globals mu su md sd w))) ->
      mainGitHubURL globals = "" /\ truthy mu = false)
  /\ (action args = Setup ->
      forall cwd,
        In ("git init", cwd) (commands_of (trace (main sys globals args w))) ->
        mainGitHubURL globals = "")
  /\ (nonempty (mainGitHubURL globals) = true ->
      forall w1 w2,
        makedirs sys md w = Some w1 ->
        makedirs sys sd w1 = Some w2 ->
        path_exists sys (path_join md ".git") w2 = false ->
        let um := effective_url mu (mainGitHubURL globals) in
        truthy um = true
        /\ exists rest,
             commands_of (trace (setup_repositories sys globals mu su md sd w))
             = ("git clone " ++ fmt um ++ " " ++ md, None) :: rest)
  /\ (action args = Setup ->
      truthy sub_url = true ->
      main sys globals args w
      = bind (setup_repositories sys globals main_url sub_url
                (main_dir args) (sub_dir args))
          (fun dirs =>
             bind (add_sub_repo_as_remote sys (fst dirs) (snd dirs) "subrepo")
               (fun _ => print "Repositories setup complete!")) w)
  /\ (action args = Setup ->
      nonempty (mainGitHubURL globals) = true ->
      truthy sub_url = true ->
      forall w1 w2,
        makedirs sys (main_dir args) w = Some w1 ->
        makedirs sys (sub_dir args) w1 = Some w2 ->
        path_exists sys (path_join (main_dir args) ".git") w2 = false ->
        truthy main_url = true
        /\ exists rest,
             commands_of (trace (main sys globals args w))
             = ("git clone " ++ fmt main_url ++ " " ++ main_dir args, None) :: rest)
  /\ (nonempty (mainGitHubURL shipped) = true
      /\ nonempty (subGitHubURL shipped) = true)
  /\ (forall args' w' w1 w2,
        action args' = Setup ->
        makedirs sys (main_dir args') w' = Some w1 ->
        makedirs sys (sub_dir args') w1 = Some w2 ->
        path_exists sys (path_join (main_dir args') ".git") w2 = false ->
        exists rest,
          commands_of (trace (main sys shipped args' w'))
          = ("git clone "
             ++ (if truthy (main_repo args') then fmt (main_repo args')
                 else mainGitHubURL shipped)
             ++ " " ++ main_dir args', None) :: rest)
  /\ (forall args' w' cwd,
        action args' = Setup ->
        ~ In ("git init", cwd) (commands_of (trace (main sys shipped args' w')))).
Proof.
  intros main_url sub_url.
  change main_url with (cli_url (main_repo args) (mainGitHubURL globals)).
  change sub_url with (cli_url (sub_repo args) (subGitHubURL globals)).
  split; [|split; [|split; [|split; [|split; [|split; [|split]]]]]].
  - intros cwd I.
    destruct (setup_repositories_issues sys globals mu su md sd w _ I)
      as [[E _]|[[_ T]|[E _]]]; try discriminate E.
    now destruct (effective_url_falsy _ _ T).
  - intros A cwd I. exact (main_setup_issues sys globals args A w _ I eq_refl).
  - intros G w1 w2 M1 M2 P1 um. split.
    + now apply effective_url_truthy.
    + destruct (setup_main_first_command sys globals mu su md sd w w1 w2 M1 M2 P1)
        as [rest E].
      exists rest. rewrite E. unfold um.
      rewrite (effective_url_truthy mu _ G). reflexivity.
  - intros A S. apply (main_setup_steps sys globals args w A S).
  - intros A G S w1 w2 M1 M2 P1.
    pose proof (cli_url_truthy (main_repo args) _ G) as T. split; [exact T|].
    destruct (main_setup_first_command globals args w w1 w2 A S M1 M2 P1) as [rest E].
    exists rest. rewrite E, T. reflexivity.
  - split; reflexivity.
  - intros args' w' w1 w2 A M1 M2 P1.
    pose proof (cli_url_truthy (main_repo args') (mainGitHubURL shipped) eq_refl) as T.
    pose proof (cli_url_truthy (sub_repo args') (subGitHubURL shipped) eq_refl) as S.
    destruct (main_setup_first_command shipped args' w' w1 w2 A S M1 M2 P1)
      as [rest E].
    exists rest. rewrite E, T. unfold clone_command, cli_url.
    now destruct (truthy (main_repo args')).
  - intros args' w' cwd A I.
    pose proof (main_setup_issues sys shipped args' A w' _ I eq_refl) as E.
    discriminate E.
Qed.

End Setup_urls.

Lemma main_is_cloned_not_initialized_witness :
  (mainGitHubURL Toy.no_urls = "" /\ PyStr.truthy None = false)
  /\ mainGitHubURL Toy.no_urls = ""
  /\ (exists rest,
        commands_of (trace (setup_repositories Toy.system shipped None None
                              "main_repo" "sub_repo" Toy.fresh))
        = ("git clone " ++ mainGitHubURL shipped ++ " main_repo", None) :: rest)
  /\ main Toy.system shipped default_args Toy.fresh
     = bind (setup_repositories Toy.system shipped (Some (mainGitHubURL shipped))
               (Some (subGitHubURL shipped)) "main_repo" "sub_repo")
         (fun dirs =>
            bind (add_sub_repo_as_remote Toy.system (fst dirs) (snd dirs) "subrepo")
              (fun _ => print "Repositories setup complete!")) Toy.fresh
  /\ (exists rest,
        commands_of (trace (main Toy.system shipped default_args Toy.fresh))
        = ("git clone " ++ mainGitHubURL shipped ++ " main_repo", None) :: rest)
  /\ (exists rest,
        commands_of (trace (main Toy.system shipped Toy.cli_setup Toy.fresh))
        = ("git clone m.git main_repo", None) :: rest).
Proof.
  pose (w1 := Toy.with_paths Toy.fresh ["main_repo"]).
  pose (w2 := Toy.with_paths Toy.fresh ["sub_repo"; "main_repo"]).
  destruct (main_is_cloned_not_initialized Toy.system Toy.no_urls None (Some "s.git")
              "main_repo" "sub_repo" (mkArgs None (Some "s.git") Setup "" "main" None
                                        "main_repo" "sub_repo") Toy.fresh)
    as (H1 & H2 & _).
  destruct (main_is_cloned_not_initialized Toy.system shipped None None
              "main_repo" "sub_repo" default_args Toy.fresh)
    as (_ & _ & H3 & H4 & H5 & _ & H7 & _).
  split; [apply (H1 (Some "main_repo")); vm_compute; auto|].
  split; [apply (H2 eq_refl (Some "main_repo")); vm_compute; auto|].
  split; [exact (proj2 (H3 eq_refl w1 w2 eq_refl eq_refl eq_refl))|].
  split; [exact (H4 eq_refl eq_refl)|].
  split; [exact (proj2 (H5 eq_refl eq_refl eq_refl w1 w2 eq_refl eq_refl eq_refl))|].
  exact (H7 Toy.cli_setup Toy.fresh w1 w2 eq_refl eq_refl eq_refl eq_refl).
Defined.

(** * Directory names the shell does not read as one word

    The command lines are built by splicing names and paths in as they
    are, while [os.makedirs], [os.path.join] and [cwd=] take the same
    names literally.  The two runs below are what that makes of the
    skip on existing metadata and of the retargeting of an existing
    remote. *)

(** C3.  Provisioning twice is not idempotent for the main directory
    [" lead"].  The first setup makes the directory [" lead"] and
    clones with the line [git clone m.git  lead], which the shell reads
    as a clone into [lead]; the clone succeeds and the setup returns,
    but the metadata the code looks for, [" lead/.git"], is not there.
    The second setup with the same arguments therefore issues the same
    clone again, which fails on the existing destination, and the
    process exits with status 1.  The other branch of the same test
    does not have the defect: without a main URL the directory reaches
    [git init] through [cwd=], the metadata lands where the code looks,
    and the second setup issues nothing and changes nothing. *)
Theorem provisioning_twice_clones_again :
  let setup :=
    setup_repositories Toy.system shipped (Some "m.git") (Some "s.git")
      " lead" "sub_repo" in
  let r1 := setup Toy.fresh in
  let r2 := setup (final r1) in
  result r1 = Returned (" lead", "sub_repo")
  /\ commands_of (trace r1)
     = [("git clone m.git  lead", None); ("git clone s.git sub_repo", None)]
  /\ path_exists Toy.system (PyStr.path_join " lead" ".git") (final r1) = false
  /\ path_exists Toy.system (PyStr.path_join "lead" ".git") (final r1) = true
  /\ result r2 = Exited 1
  /\ commands_of (trace r2) = [("git clone m.git  lead", None)]
  /\ In (Printed "Error executing command: git clone m.git  lead") (trace r2)
  /\ (let init :=
        setup_repositories Toy.system Toy.no_urls None (Some "s.git")
          " lead" "sub_repo" in
      commands_of (trace (init Toy.fresh))
      = [("git init", Some " lead"); ("git clone s.git sub_repo", None)]
      /\ result (init (final (init Toy.fresh))) = Returned (" lead", "sub_repo")
      /\ commands_of (trace (init (final (init Toy.fresh)))) = []
      /\ final (init (final (init Toy.fresh))) = final (init Toy.fresh)).
Proof.
  vm_compute. repeat split; auto 10.
Qed.

(** C5.  Linking twice does not leave one remote entry when the absolute
    path of the sub directory has a blank.  With both repositories in
    place and the sub one in [my sub], the link lists the remotes, finds
    none called [subrepo], and issues [git remote add subrepo /srv/my sub],
    which git refuses as one argument too many: the process exits with
    status 1 and no remote is configured.  A second link does the same,
    and so does the setup action of [main] in that world. *)
Theorem linking_fails_on_blank_in_path :
  let link := add_sub_repo_as_remote Toy.system "main_repo" "my sub" "subrepo" in
  let r1 := link Toy.blank_sub in
  let r2 := link (final r1) in
  let rm :=
    main Toy.system shipped
      (mkArgs None None Setup "Update from script" "main" None "main_repo" "my sub")
      Toy.blank_sub in
  abspath Toy.system "my sub" = "/srv/my sub"
  /\ result r1 = Exited 1
  /\ commands_of (trace r1)
     = [("git remote", Some "main_repo");
        ("git remote add subrepo /srv/my sub", Some "main_repo")]
  /\ Remotes.entries "subrepo" (Toy.remotes (final r1)) = []
  /\ result r2 = Exited 1
  /\ Remotes.entries "subrepo" (Toy.remotes (final r2)) = []
  /\ result rm = Exited 1
  /\ commands_of (trace rm)
     = [("git remote", Some "main_repo");
        ("git remote add subrepo /srv/my sub", Some "main_repo")]
  /\ Remotes.entries "subrepo" (Toy.remotes (final rm)) = [].
Proof.
  vm_compute. repeat split.
Qed.
